(** * devops_orchestrator.py: reconciliation engine of a local multi-service
      development environment

    Shallow embedding of [src/devops_orchestrator.py].  Python [str] values
    are Rocq strings holding the UTF-8 bytes of the text; every needle
    searched for by the program is plain ASCII, so substring tests on the
    bytes and on the code points agree.  The filesystem below the process
    working directory is a finite map from paths to nodes.  External
    processes (git, docker) are oracles: only their exit status, their
    printed text and their effect on the filesystem are observed. *)

From stdpp Require Import gmap strings list fin_maps.
From Stdlib Require Import ZArith Ascii String.

Local Open Scope string_scope.
Local Open Scope list_scope.

(** ** Text *)

Module Text.

(** The double quote and line feed characters, written by code. *)
Definition dq : string := String (ascii_of_nat 34) EmptyString.
Definition nl_char : ascii := ascii_of_nat 10.
Definition nl : string := String nl_char EmptyString.

(** Python's [needle in hay] on [str]. *)
Fixpoint contains (needle hay : string) : bool :=
  String.prefix needle hay ||
  match hay with
  | EmptyString => false
  | String _ hay' => contains needle hay'
  end.

(** [text.split("\n")]: the lines of a text. *)
Fixpoint lines (s : string) : list string :=
  match s with
  | EmptyString => [""]
  | String c s' =>
      if Ascii.eqb c nl_char then "" :: lines s'
      else match lines s' with
           | [] => [String c ""]
           | l :: ls => String c l :: ls
           end
  end.

(** Does the block of lines [blk] start at the head of [ls]? *)
Fixpoint starts_with (blk ls : list string) : bool :=
  match blk, ls with
  | [], _ => true
  | _ :: _, [] => false
  | b :: blk', l :: ls' => String.eqb b l && starts_with blk' ls'
  end.

(** Number of positions of [ls] at which the block of lines [blk]
    starts: the number of occurrences of the block. *)
Fixpoint count_block (blk ls : list string) : nat :=
  (if starts_with blk ls then 1 else 0) +
  match ls with
  | [] => 0
  | _ :: ls' => count_block blk ls'
  end.

Definition newline_free (s : string) : Prop := contains nl s = false.

End Text.

Import Text.

(** ** Filesystem *)

(** A path is the list of its components below [BASE_DIR] (the process
    working directory), innermost component first, so that the parent of
    [p </> c] is [p]. *)
Abbreviation path := (list string).

Definition BASE_DIR : path := [].
Definition sub (p : path) (c : string) : path := c :: p.
Infix "</>" := sub (at level 40, left associativity).

Definition PROJECT_NAME : string := "prod".
Definition WORK_DIR : path := BASE_DIR </> PROJECT_NAME.

Inductive node :=
| Dir
| File (content : string)
| Binary.  (* a regular file whose bytes are not valid UTF-8 text *)

Global Instance node_eq_dec : EqDecision node.
Proof. solve_decision. Defined.

(** Python exceptions raised by the modelled operations. *)
Inductive exn :=
| FileNotFoundError
| FileExistsError
| NotADirectoryError
| IsADirectoryError
| PermissionError
| UnicodeDecodeError
| SpawnError (msg : string).

(** [str(e)]: the operating system's message is abstracted to the class
    of the exception. *)
Definition str_exn (e : exn) : string :=
  match e with
  | FileNotFoundError => "No such file or directory"
  | FileExistsError => "File exists"
  | NotADirectoryError => "Not a directory"
  | IsADirectoryError => "Is a directory"
  | PermissionError => "Permission denied"
  | UnicodeDecodeError => "codec can't decode"
  | SpawnError msg => msg
  end.

Abbreviation filesystem := (gmap path node).

Module FS.

(** The node at a path; [BASE_DIR] itself is a directory. *)
Definition node_at (fs : filesystem) (p : path) : option node :=
  match p with
  | [] => Some Dir
  | _ :: _ => fs !! p
  end.

(** [Path.exists()] *)
Definition path_exists (fs : filesystem) (p : path) : bool :=
  match node_at fs p with Some _ => true | None => false end.

Definition is_dir (fs : filesystem) (p : path) : bool :=
  match node_at fs p with Some Dir => true | _ => false end.

(** [open(p, 'r', encoding='utf-8').read()] *)
Definition read_text (fs : filesystem) (p : path) : exn + string :=
  match node_at fs p with
  | Some (File c) => inr c
  | Some Binary => inl UnicodeDecodeError
  | Some Dir => inl IsADirectoryError
  | None => inl FileNotFoundError
  end.

(** [open(p, 'w', encoding='utf-8').write(c)] *)
Definition write_text (fs : filesystem) (p : path) (c : string)
  : exn + filesystem :=
  match p with
  | [] => inl IsADirectoryError
  | _ :: parent =>
      match node_at fs parent with
      | None => inl FileNotFoundError
      | Some Dir =>
          match fs !! p with
          | Some Dir => inl IsADirectoryError
          | _ => inr (<[p := File c]> fs)
          end
      | Some _ => inl NotADirectoryError
      end
  end.

(** [Path.mkdir(exist_ok=True)] *)
Definition mkdir (fs : filesystem) (p : path) : exn + filesystem :=
  match p with
  | [] => inr fs
  | _ :: parent =>
      match node_at fs parent with
      | None => inl FileNotFoundError
      | Some Dir =>
          match fs !! p with
          | Some Dir => inr fs
          | Some _ => inl FileExistsError
          | None => inr (<[p := Dir]> fs)
          end
      | Some _ => inl NotADirectoryError
      end
  end.

(** [Path.mkdir(parents=True, exist_ok=True)]: missing ancestors are
    created outermost first. *)
Fixpoint mkdir_parents (fs : filesystem) (p : path) : exn + filesystem :=
  match p with
  | [] => inr fs
  | _ :: parent =>
      match fs !! p with
      | Some Dir => inr fs
      | Some _ => inl FileExistsError
      | None =>
          match mkdir_parents fs parent with
          | inl FileExistsError => inl NotADirectoryError
          | inl e => inl e
          | inr fs' => inr (<[p := Dir]> fs')
          end
      end
  end.

(** [os.remove(p)] *)
Definition remove (fs : filesystem) (p : path) : exn + filesystem :=
  match node_at fs p with
  | None => inl FileNotFoundError
  | Some Dir => inl IsADirectoryError
  | Some _ => inr (delete p fs)
  end.

(** [shutil.copy(src, dst)]: the bytes of [src] are written to [dst]; a
    destination that is a directory receives them under the base name
    of [src]. *)
Definition copy (fs : filesystem) (src dst : path) : exn + filesystem :=
  match node_at fs src with
  | None => inl FileNotFoundError
  | Some Dir => inl IsADirectoryError
  | Some n =>
      match dst with
      | [] => inl IsADirectoryError
      | base :: parent =>
          match node_at fs parent with
          | None => inl FileNotFoundError
          | Some Dir =>
              match fs !! dst with
              | Some Dir =>
                  match src with
                  | [] => inl IsADirectoryError
                  | name :: _ => inr (<[dst </> name := n]> fs)
                  end
              | _ => inr (<[dst := n]> fs)
              end
          | Some _ => inl NotADirectoryError
          end
      end
  end.

Definition is_child (p q : path) : bool :=
  match q with
  | [] => false
  | _ :: parent => bool_decide (parent = p)
  end.

(** [any(p.iterdir())] *)
Definition has_entries (fs : filesystem) (p : path) : exn + bool :=
  match node_at fs p with
  | None => inl FileNotFoundError
  | Some Dir => inr (existsb (λ qn, is_child p qn.1) (map_to_list fs))
  | Some _ => inl NotADirectoryError
  end.

(** Every entry lies in a directory. *)
Definition wf (fs : filesystem) : Prop :=
  map_Forall (λ q _, match q with
                     | [] => True
                     | _ :: parent => is_dir fs parent = true
                     end) fs.

End FS.

(** ** Configuration *)

Record Repo := { name : string; url : string }.

Definition REPOS : list Repo :=
  [ {| name := "datasource";
       url := "https://github.com/ibm-live-project-interns/datasource.git" |};
    {| name := "ingestor";
       url := "https://github.com/ibm-live-project-interns/ingestor.git" |};
    {| name := "ai-core";
       url := "https://github.com/ibm-live-project-interns/ai-core.git" |};
    {| name := "ui";
       url := "https://github.com/ibm-live-project-interns/ui.git" |} ].

(** ** Mock detection *)

Definition SENTINEL : string := "FAILSAFE MODE".

(** The body of the [try] block of [is_mock_file]. *)
Definition is_mock_file_try (fs : filesystem) (file_path : path)
  : exn + bool :=
  if negb (FS.path_exists fs file_path) then inr false
  else match FS.read_text fs file_path with
       | inl e => inl e
       | inr content => inr (contains SENTINEL content)
       end.

(** [is_mock_file]: the bare [except] turns every exception into False. *)
Definition is_mock_file (fs : filesystem) (file_path : path) : bool :=
  match is_mock_file_try fs file_path with
  | inr b => b
  | inl _ => false
  end.

(** The placeholder recipe written by [run_bootstrap] (step 3). *)
Definition mock_content : string :=
  "FROM alpine:latest" +:+ nl +:+
  "ARG SERVICE_NAME" +:+ nl +:+
  "RUN echo " +:+ dq +:+
    "⚠️ FAILSAFE MODE: Service [$SERVICE_NAME] is running as a placeholder."
    +:+ dq +:+ nl +:+
  "CMD [" +:+ dq +:+ "sh" +:+ dq +:+ ", " +:+ dq +:+ "-c" +:+ dq +:+ ", "
    +:+ dq +:+
    "while true; do echo 💤 [$SERVICE_NAME] Sleeping (Failsafe Mode)...; sleep 30; done"
    +:+ dq +:+ "]" +:+ nl.

(** ** The prober: [get_status] *)

Inductive ServiceState :=
| Missing | NotVersionControlled | MockActive | Valid | Corrupt.

Inductive ContainerState := Running | Stopped | NotCreated.

(** The labels the program stores in its status dictionaries. *)
Definition service_label (s : ServiceState) : string :=
  match s with
  | Missing => "❌ Missing"
  | NotVersionControlled => "⚠️ Not a Git Repo"
  | MockActive => "⚠️ Mock Active"
  | Valid => "✅ Valid Code"
  | Corrupt => "❓ Corrupt"
  end.

Definition container_label (s : ContainerState) : string :=
  match s with
  | Running => "🟢 Running"
  | Stopped => "🔴 Stopped"
  | NotCreated => "⚪ Not Created"
  end.

Record Status := {
  docker : bool;
  repos : gmap string ServiceState;
  containers : gmap string ContainerState;
  alerts : list string
}.

Definition set_docker (st : Status) (b : bool) : Status :=
  {| docker := b; repos := repos st;
     containers := containers st; alerts := alerts st |}.
Definition set_repo (st : Status) (k : string) (s : ServiceState) : Status :=
  {| docker := docker st; repos := <[k := s]> (repos st);
     containers := containers st; alerts := alerts st |}.
Definition set_container (st : Status) (k : string) (s : ContainerState)
  : Status :=
  {| docker := docker st; repos := repos st;
     containers := <[k := s]> (containers st); alerts := alerts st |}.
Definition add_alert (st : Status) (a : string) : Status :=
  {| docker := docker st; repos := repos st;
     containers := containers st; alerts := alerts st ++ [a] |}.

(** What the two container-engine queries of [get_status] can do. *)
Inductive version_outcome :=
| VersionOk | VersionCalledProcessError | VersionFileNotFound.

Inductive ps_outcome :=
| PsStdout (output : string)
| PsRaises (e : exn).

Record runtime := {
  docker_version : version_outcome;
  compose_ps : filesystem → path → ps_outcome
}.

(** One iteration of the repository loop (lines 54-78). *)
Definition probe_repo (fs : filesystem) (work_dir : path)
    (status : Status) (repo : Repo) : Status :=
  let name := repo.(name) in
  let repo_path := work_dir </> "services" </> name in
  let dockerfile := repo_path </> "Dockerfile" in
  let status :=
    if negb (FS.path_exists fs repo_path) then
      add_alert (set_repo status name Missing)
                ("**" +:+ name +:+ "**: Folder missing entirely.")
    else if negb (FS.path_exists fs (repo_path </> ".git")) then
      set_repo status name NotVersionControlled
    else status in
  if is_mock_file fs dockerfile then
    let status := set_repo status name MockActive in
    let reason :=
      if negb (FS.path_exists fs (repo_path </> ".git"))
      then "Repository clone failed or missing."
      else "Repository exists but missing valid 'Dockerfile'." in
    add_alert status
      ("**" +:+ name +:+ "**: Running Mock. Reason: " +:+ reason)
  else if FS.path_exists fs dockerfile then
    set_repo status name Valid
  else
    add_alert (set_repo status name Corrupt)
      ("**" +:+ name +:+ "**: Repository corrupt (No Dockerfile found).").

(** One iteration of the container loop (lines 89-96). *)
Definition probe_container (output : string) (status : Status)
    (repo : Repo) : Status :=
  let name := repo.(name) in
  if contains name output && contains "Up" output then
    set_container status name Running
  else if contains name output then
    set_container status name Stopped
  else
    set_container status name NotCreated.

(** The datastore entry (lines 98-101). *)
Definition probe_database (output : string) (status : Status) : Status :=
  if contains "postgres" output && contains "Up" output then
    set_container status "database" Running
  else
    set_container status "database" NotCreated.

Definition get_status (rt : runtime) (fs : filesystem) (work_dir : path)
  : Status :=
  let status :=
    {| docker := false; repos := ∅; containers := ∅; alerts := [] |} in
  (* 1. Docker Engine Check *)
  let status :=
    match docker_version rt with
    | VersionOk => set_docker status true
    | VersionCalledProcessError | VersionFileNotFound =>
        set_docker status false
    end in
  (* 2. Repository Folder Check *)
  let status := foldl (probe_repo fs work_dir) status REPOS in
  (* 3. Container Status Check *)
  if FS.path_exists fs (work_dir </> "docker-compose.yml") then
    match compose_ps rt fs work_dir with
    | PsStdout output =>
        let status := foldl (probe_container output) status REPOS in
        probe_database output status
    | PsRaises _ => status
    end
  else status.

(** The final state of one service as a function of the four facts the
    prober tests: the branch structure of lines 59-78. *)
Definition final_state (folder vcs recipe mock : bool) : ServiceState :=
  if mock then MockActive
  else if recipe then Valid
  else Corrupt.

(** The three-way rule of the service loop. *)
Definition three_way (present up : bool) : ContainerState :=
  if present && up then Running
  else if present then Stopped
  else NotCreated.

(** ** The compose generator: [generate_dynamic_compose] *)

(** The text appended to [services_block] for one service. *)
Definition service_block (name : string) : string :=
  nl +:+
  "  " +:+ name +:+ ":" +:+ nl +:+
  "    build:" +:+ nl +:+
  "      context: ./services/" +:+ name +:+ nl +:+
  "      args:" +:+ nl +:+
  "        SERVICE_NAME: " +:+ name +:+ nl +:+
  "    env_file: .env" +:+ nl +:+
  "    networks: [org-network]" +:+ nl.

(** The fixed part of the descriptor that precedes [{services_block}]. *)
Definition compose_header : string :=
  "version: '3.8'" +:+ nl +:+
  "networks:" +:+ nl +:+
  "  org-network:" +:+ nl +:+
  "    driver: bridge" +:+ nl +:+
  "volumes:" +:+ nl +:+
  "  postgres_data:" +:+ nl +:+
  "  app_logs:" +:+ nl +:+
  "services:" +:+ nl +:+
  "  postgres:" +:+ nl +:+
  "    image: postgres:15-alpine" +:+ nl +:+
  "    ports: [" +:+ dq +:+ "5432:5432" +:+ dq +:+ "]" +:+ nl +:+
  "    networks: [org-network]" +:+ nl +:+
  "    environment:" +:+ nl +:+
  "      POSTGRES_USER: ${POSTGRES_USER}" +:+ nl +:+
  "      POSTGRES_PASSWORD: ${POSTGRES_PASSWORD}" +:+ nl +:+
  "      POSTGRES_DB: my_org_db" +:+ nl +:+
  "    volumes: [" +:+ dq +:+ "postgres_data:/var/lib/postgresql/data"
    +:+ dq +:+ "]" +:+ nl.

Definition generate_dynamic_compose (repos : list Repo) : string :=
  let services_block :=
    foldl (λ services_block repo,
             services_block +:+ service_block repo.(name)) "" repos in
  compose_header +:+ services_block +:+ nl.

(** The blocks the descriptor is read for, as lines. *)
Definition datastore_block : list string :=
  [ "  postgres:";
    "    image: postgres:15-alpine";
    "    ports: [" +:+ dq +:+ "5432:5432" +:+ dq +:+ "]";
    "    networks: [org-network]";
    "    environment:";
    "      POSTGRES_USER: ${POSTGRES_USER}";
    "      POSTGRES_PASSWORD: ${POSTGRES_PASSWORD}";
    "      POSTGRES_DB: my_org_db";
    "    volumes: [" +:+ dq +:+ "postgres_data:/var/lib/postgresql/data"
      +:+ dq +:+ "]" ].

Definition network_block : list string :=
  [ "networks:"; "  org-network:"; "    driver: bridge" ].

Definition build_block (name : string) : list string :=
  [ "  " +:+ name +:+ ":";
    "    build:";
    "      context: ./services/" +:+ name;
    "      args:";
    "        SERVICE_NAME: " +:+ name;
    "    env_file: .env";
    "    networks: [org-network]" ].

(** ** The process runner and the convergence engine *)

Inductive sink_event :=
| SinkCode (text : string)    (* [log_container.code(text, language="bash")] *)
| SinkError (text : string).  (* [log_container.error(text)] *)

Inductive ui_event :=
| UiSuccess (msg : string)
| UiError (msg : string)
| UiSessionLogs (text : string)
| UiLastUpdated (ts : string)
| UiSleep (seconds : nat)
| UiRerun.

(** What a spawned shell command does: it prints lines and exits with a
    status, or an exception is raised at spawn time or while its output is
    read; in both cases it may have changed the filesystem. *)
Inductive proc_outcome :=
| Exited (out_lines : list string) (code : Z) (fs' : filesystem)
| Failed (out_lines : list string) (e : exn) (fs' : filesystem).

Record host := {
  cwd_str : string;                 (* [str(Path.cwd())] *)
  clock : nat → string;             (* the n-th reading of the wall clock *)
  popen : string → path → filesystem → proc_outcome;
  (* the operating system refusing [os.remove] on an entry that is there:
     a read-only folder, a file in use *)
  remove_error : path → filesystem → option exn
}.

Record world := {
  w_fs : filesystem;
  w_logs : list string;             (* the messages accumulated in [logs] *)
  w_sink : list sink_event;         (* what [log_ph] received *)
  w_ui : list ui_event;             (* calls into the dashboard *)
  w_popen : list (string * path)    (* calls of [subprocess.Popen] *)
}.

Definition with_fs (w : world) (fs : filesystem) : world :=
  {| w_fs := fs; w_logs := w_logs w; w_sink := w_sink w;
     w_ui := w_ui w; w_popen := w_popen w |}.
Definition with_logs (w : world) (l : list string) : world :=
  {| w_fs := w_fs w; w_logs := l; w_sink := w_sink w;
     w_ui := w_ui w; w_popen := w_popen w |}.
Definition push_sink (w : world) (e : sink_event) : world :=
  {| w_fs := w_fs w; w_logs := w_logs w; w_sink := w_sink w ++ [e];
     w_ui := w_ui w; w_popen := w_popen w |}.
Definition push_ui (w : world) (e : ui_event) : world :=
  {| w_fs := w_fs w; w_logs := w_logs w; w_sink := w_sink w;
     w_ui := w_ui w ++ [e]; w_popen := w_popen w |}.
Definition push_popen (w : world) (c : string * path) : world :=
  {| w_fs := w_fs w; w_logs := w_logs w; w_sink := w_sink w;
     w_ui := w_ui w; w_popen := w_popen w ++ [c] |}.

(** Computations that read and change the world and may raise. *)
Inductive result (A : Type) :=
| Ok (a : A) (w : world)
| Raised (e : exn) (w : world).
Arguments Ok {A} a w.
Arguments Raised {A} e w.

Definition M (A : Type) : Type := world → result A.

Global Instance M_ret : MRet M := λ A a w, Ok a w.
Global Instance M_bind : MBind M := λ A B f m w,
  match m w with
  | Ok a w' => f a w'
  | Raised e w' => Raised e w'
  end.

Definition try_except {A} (body : M A) (handler : exn → M A) : M A :=
  λ w, match body w with
       | Ok a w' => Ok a w'
       | Raised e w' => handler e w'
       end.

Definition query {A} (f : filesystem → A) : M A :=
  λ w, Ok (f (w_fs w)) w.

Definition query_raising {A} (f : filesystem → exn + A) : M A :=
  λ w, match f (w_fs w) with
       | inr a => Ok a w
       | inl e => Raised e w
       end.

Definition update_fs (f : filesystem → exn + filesystem) : M unit :=
  λ w, match f (w_fs w) with
       | inr fs' => Ok tt (with_fs w fs')
       | inl e => Raised e w
       end.

Definition emit_sink (e : sink_event) : M unit := λ w, Ok tt (push_sink w e).
Definition emit_ui (e : ui_event) : M unit := λ w, Ok tt (push_ui w e).

Definition pass : M unit := mret tt.
Definition return_ {A} (a : A) : M A := mret a.

Fixpoint for_each {A} (body : A → M unit) (l : list A) : M unit :=
  match l with
  | [] => pass
  | x :: rest => body x;; for_each body rest
  end.

(** [str(p)] *)
Fixpoint str_path (h : host) (p : path) : string :=
  match p with
  | [] => cwd_str h
  | c :: parent => str_path h parent +:+ "/" +:+ c
  end.

(** The cumulative transcripts pushed to the sink, one per line read. *)
Fixpoint stream_lines (full_log : string) (out_lines : list string)
  : list sink_event :=
  match out_lines with
  | [] => []
  | line :: rest =>
      let full_log := full_log +:+ line in
      SinkCode full_log :: stream_lines full_log rest
  end.

Definition stream_command (h : host) (cmd : string) (cwd : path) : M bool :=
  cwd_exists ← query (λ fs, FS.path_exists fs cwd);
  if negb cwd_exists then
    emit_sink (SinkError ("❌ Path not found: " +:+ str_path h cwd));;
    return_ false
  else
    try_except
      (λ w,
         let w := push_popen w (cmd, cwd) in
         match popen h cmd cwd (w_fs w) with
         | Exited out_lines code fs' =>
             let w := with_fs w fs' in
             let w := foldl push_sink w (stream_lines "" out_lines) in
             Ok (bool_decide (code = 0%Z)) w
         | Failed out_lines e fs' =>
             let w := with_fs w fs' in
             let w := foldl push_sink w (stream_lines "" out_lines) in
             Raised e w
         end)
      (λ e,
         emit_sink (SinkError ("❌ Error: " +:+ str_exn e));;
         return_ false).

(** The closure [log] of [run_bootstrap]. *)
Definition render_logs (logs : list string) : string :=
  foldr (λ msg rest, msg +:+ nl +:+ rest) "" logs.

Definition log (msg : string) : M unit :=
  λ w,
    let logs := w_logs w ++ [msg] in
    let w := with_logs w logs in
    let w := push_sink w (SinkCode (render_logs logs)) in
    Ok tt (push_ui w (UiSessionLogs (render_logs logs))).

Definition compose_file : path := WORK_DIR </> "docker-compose.yml".
Definition mock_file : path := WORK_DIR </> "_failsafe" </> "Dockerfile.mock".
Definition env_file : path := WORK_DIR </> ".env".

Definition env_defaults : string :=
  "ENV=dev" +:+ nl +:+ "POSTGRES_USER=admin" +:+ nl +:+
  "POSTGRES_PASSWORD=secret".

(** 1. Directory Setup *)
Definition step1_directories (h : host) : M unit :=
  work_dir_exists ← query (λ fs, FS.path_exists fs WORK_DIR);
  if negb work_dir_exists then
    log ("📂 Creating workspace: " +:+ str_path h WORK_DIR);;
    update_fs (λ fs, FS.mkdir_parents fs WORK_DIR);;
    update_fs (λ fs, FS.mkdir fs (WORK_DIR </> "services"));;
    update_fs (λ fs, FS.mkdir fs (WORK_DIR </> "_failsafe"))
  else pass.

(** 2. Regenerate Docker Compose.  The result tells whether the run goes
    on ([false]: the [except] branch has logged the error and returned). *)
Definition step2_compose : M bool :=
  log "📄 Generating dynamic docker-compose.yml...";;
  try_except
    (let content := generate_dynamic_compose REPOS in
     update_fs (λ fs, FS.write_text fs compose_file content);;
     return_ true)
    (λ e,
       log ("❌ Error writing compose file: " +:+ str_exn e);;
       return_ false).

(** 3. Generate Mock File *)
Definition step3_mock : M unit :=
  update_fs (λ fs, FS.mkdir_parents fs (WORK_DIR </> "_failsafe"));;
  update_fs (λ fs, FS.write_text fs mock_file mock_content).

(** [os.remove(p)] as the run sees it: the operating system may refuse
    the deletion; otherwise the entry is removed. *)
Definition os_remove (h : host) (fs : filesystem) (p : path)
  : exn + filesystem :=
  match remove_error h p fs with
  | Some e => inl e
  | None => FS.remove fs p
  end.

(** 4. Repo Management: A/B, clone or update. *)
Definition clone_or_update (h : host) (repo : Repo) : M unit :=
  let name := repo.(name) in
  let url := repo.(url) in
  let path := WORK_DIR </> "services" </> name in
  let dockerfile := path </> "Dockerfile" in
  has_git ← query (λ fs, FS.path_exists fs (path </> ".git"));
  if negb has_git then
    log ("⬇️ Cloning " +:+ name +:+ "...");;
    non_empty ← query_raising (λ fs, FS.has_entries fs path);
    has_git ← query (λ fs, FS.path_exists fs (path </> ".git"));
    if non_empty && negb has_git then
      log ("⚠️ Folder " +:+ name
           +:+ " exists but is not a git repo. Skipping clone.")
    else
      stream_command h
        ("git clone " +:+ url +:+ " " +:+ dq +:+ str_path h path +:+ dq)
        WORK_DIR;;
      pass
  else
    is_mock ← query (λ fs, is_mock_file fs dockerfile);
    (if (is_mock : bool) then
       log ("🔄 Mock detected in " +:+ name
            +:+ ". Removing mock to allow update...");;
       try_except (update_fs (λ fs, os_remove h fs dockerfile))
                  (λ _, pass)
     else pass);;
    log ("🔄 Updating " +:+ name +:+ "...");;
    stream_command h "git pull" path;;
    pass.

(** 4. Repo Management: C, final validation and injection. *)
Definition msg_inject (name : string) : string :=
  "⚠️ No Dockerfile in " +:+ name +:+ ". Injecting Failsafe Mock.".
Definition msg_using_mock (name : string) : string :=
  "ℹ️ " +:+ name +:+ " is using Mock.".
Definition msg_valid (name : string) : string :=
  "✅ " +:+ name +:+ " is valid.".

Definition final_validation (repo : Repo) : M unit :=
  let name := repo.(name) in
  let path := WORK_DIR </> "services" </> name in
  let dockerfile := path </> "Dockerfile" in
  has_recipe ← query (λ fs, FS.path_exists fs dockerfile);
  if negb has_recipe then
    log (msg_inject name);;
    update_fs (λ fs, FS.copy fs mock_file dockerfile)
  else
    is_mock ← query (λ fs, is_mock_file fs dockerfile);
    if (is_mock : bool) then log (msg_using_mock name)
    else log (msg_valid name).

(** One iteration of the loop of step 4. *)
Definition manage_repo (h : host) (repo : Repo) : M unit :=
  let path := WORK_DIR </> "services" </> repo.(name) in
  path_exists ← query (λ fs, FS.path_exists fs path);
  (if negb path_exists then update_fs (λ fs, FS.mkdir_parents fs path)
   else pass);;
  clone_or_update h repo;;
  final_validation repo.

(** 5. Env File *)
Definition step5_env : M unit :=
  env_exists ← query (λ fs, FS.path_exists fs env_file);
  if negb env_exists then
    update_fs (λ fs, FS.write_text fs env_file env_defaults)
  else pass.

(** 6. Launch *)
Definition step6_launch (h : host) : M unit :=
  log "🐳 Building & Starting Containers...";;
  success ← stream_command h
    "docker compose up -d --build --remove-orphans" WORK_DIR;
  if (success : bool) then
    log "✅ DONE! Environment is ready.";;
    emit_ui (UiSuccess "Services Updated & Running!");;
    emit_ui (UiLastUpdated (clock h 1));;
    emit_ui (UiSleep 2);;
    emit_ui UiRerun
  else
    log "❌ Docker failed to start. Check logs above for details.";;
    emit_ui (UiError "Infrastructure startup failed.").

Definition run_bootstrap (h : host) : M unit :=
  λ w,
    let w := with_logs w ["--- STARTED AT " +:+ clock h 0 +:+ " ---"] in
    (step1_directories h;;
     continue ← step2_compose;
     if (continue : bool) then
       step3_mock;;
       for_each (manage_repo h) REPOS;;
       step5_env;;
       step6_launch h
     else pass) w.

(** A world before the first run: nothing logged, shown or spawned yet. *)
Definition initial_world (fs : filesystem) : world :=
  {| w_fs := fs; w_logs := []; w_sink := []; w_ui := []; w_popen := [] |}.

(** * Properties *)

(** ** Text *)

Section text_facts.

Lemma str_app_cons c s t : String c s +:+ t = String c (s +:+ t).
Proof. reflexivity. Qed.

Lemma str_app_nil_r s : s +:+ "" = s.
Proof. induction s as [|c s IH]; [done|]. by rewrite str_app_cons, IH. Qed.

Lemma str_app_assoc a b c : (a +:+ b) +:+ c = a +:+ (b +:+ c).
Proof.
  induction a as [|x a IH]; [done|]. by rewrite !str_app_cons, IH.
Qed.

Lemma prefix_app n h : String.prefix n h = true ↔ ∃ b, h = n +:+ b.
Proof.
  revert h. induction n as [|c n IH]; intros h.
  - split; [intros _; by exists h|intros _; by destruct h].
  - destruct h as [|d h]; simpl.
    + split; [done|]. intros [b Hb]. by rewrite str_app_cons in Hb.
    + destruct (ascii_dec c d) as [->|Hne].
      * rewrite IH. split; intros [b Hb]; exists b.
        -- by rewrite str_app_cons, Hb.
        -- rewrite str_app_cons in Hb. by simplify_eq.
      * split; [done|]. intros [b Hb]. rewrite str_app_cons in Hb.
        by simplify_eq.
Qed.

(** [contains] is the substring test. *)
Lemma contains_nil n : contains n "" = String.prefix n "".
Proof. unfold contains. apply orb_false_r. Qed.

Lemma contains_cons n d h :
  contains n (String d h) = String.prefix n (String d h) || contains n h.
Proof. reflexivity. Qed.

Lemma contains_spec n h :
  contains n h = true ↔ ∃ a b, h = a +:+ n +:+ b.
Proof.
  induction h as [|d h IH].
  - rewrite contains_nil, prefix_app. split.
    + intros [b Hb]. by exists "", b.
    + intros [a [b Hb]]. destruct a; [by exists b|].
      by rewrite str_app_cons in Hb.
  - rewrite contains_cons, orb_true_iff, prefix_app, IH. split.
    + intros [[b Hb]|[a [b Hb]]].
      * by exists "", b.
      * exists (String d a), b. by rewrite str_app_cons, Hb.
    + intros [a [b Hb]]. destruct a as [|x a].
      * left. by exists b.
      * right. rewrite str_app_cons in Hb. simplify_eq. by exists a, b.
Qed.

End text_facts.

(** ** Mock detection *)

Section mock_detection.

Lemma is_mock_file_File fs p content :
  FS.node_at fs p = Some (File content) →
  is_mock_file fs p = contains SENTINEL content.
Proof.
  intros Hp. unfold is_mock_file, is_mock_file_try, FS.path_exists,
    FS.read_text. by rewrite Hp.
Qed.

(** C10. [is_mock_file] answers False, and never raises, for a path
    that does not exist and whenever the body of its [try] block raises,
    in particular whenever reading the file raises. *)
Theorem is_mock_file_never_raises (fs : filesystem) (p : path) :
  (FS.path_exists fs p = false → is_mock_file fs p = false)
  ∧ (∀ e, is_mock_file_try fs p = inl e → is_mock_file fs p = false)
  ∧ (∀ e, FS.read_text fs p = inl e → is_mock_file fs p = false).
Proof.
  unfold is_mock_file, is_mock_file_try. split_and!.
  - by intros ->.
  - by intros e ->.
  - intros e ->. by destruct (FS.path_exists fs p).
Qed.

Definition unreadable_fs : filesystem :=
  {[ WORK_DIR := Dir;
     WORK_DIR </> "Dockerfile" := Dir;
     WORK_DIR </> "blob" := Binary ]}.

Lemma is_mock_file_never_raises_witness :
  is_mock_file unreadable_fs (WORK_DIR </> "absent") = false
  ∧ is_mock_file unreadable_fs (WORK_DIR </> "Dockerfile") = false
  ∧ is_mock_file unreadable_fs (WORK_DIR </> "blob") = false.
Proof.
  split_and!.
  - apply (is_mock_file_never_raises unreadable_fs (WORK_DIR </> "absent")).
    reflexivity.
  - apply (is_mock_file_never_raises unreadable_fs
             (WORK_DIR </> "Dockerfile")) with IsADirectoryError.
    reflexivity.
  - refine (proj2 (proj2 (is_mock_file_never_raises unreadable_fs
             (WORK_DIR </> "blob"))) UnicodeDecodeError _).
    reflexivity.
Defined.

(** C5. The recipe text of the mock generator holds the sentinel, so a
    file with that content is classified as mock; and a file is
    classified as mock exactly when it is a readable text file whose
    content has the sentinel as a substring, byte for byte. *)
Theorem mock_detection_agrees_with_generation :
  (∃ a b, mock_content = a +:+ SENTINEL +:+ b)
  ∧ (∀ fs p, FS.node_at fs p = Some (File mock_content) →
             is_mock_file fs p = true)
  ∧ (∀ fs p content,
       FS.node_at fs p = Some (File content) →
       (¬ ∃ a b, content = a +:+ SENTINEL +:+ b) →
       is_mock_file fs p = false).
Proof.
  split_and!.
  - apply contains_spec. by vm_compute.
  - intros fs p Hp. by rewrite (is_mock_file_File _ _ _ Hp).
  - intros fs p content Hp Hno. rewrite (is_mock_file_File _ _ _ Hp).
    destruct (contains SENTINEL content) eqn:E; [|done].
    destruct Hno. by apply contains_spec.
Qed.

Definition lowercase_recipe : string :=
  "FROM alpine:latest" +:+ nl +:+ "RUN echo Failsafe Mode" +:+ nl.

Lemma mock_detection_agrees_with_generation_witness :
  is_mock_file {[ mock_file := File mock_content ]} mock_file = true
  ∧ is_mock_file {[ mock_file := File lowercase_recipe ]} mock_file
    = false.
Proof.
  destruct mock_detection_agrees_with_generation as (_ & Hgen & Hno).
  split.
  - apply Hgen. reflexivity.
  - apply (Hno _ _ lowercase_recipe); [reflexivity|].
    intros Hsub. apply contains_spec in Hsub. vm_compute in Hsub.
    discriminate.
Defined.

End mock_detection.

(** ** The prober *)

Section prober.

Variables (rt : runtime) (fs : filesystem) (work_dir : path).

(** The facts tested for the service called [n]. *)
Definition folder_of (n : string) : path := work_dir </> "services" </> n.
Definition has_folder (n : string) : bool :=
  FS.path_exists fs (folder_of n).
Definition has_vcs (n : string) : bool :=
  FS.path_exists fs (folder_of n </> ".git").
Definition has_recipe (n : string) : bool :=
  FS.path_exists fs (folder_of n </> "Dockerfile").
Definition recipe_is_mock (n : string) : bool :=
  is_mock_file fs (folder_of n </> "Dockerfile").

Definition state_of (n : string) : ServiceState :=
  final_state (has_folder n) (has_vcs n) (has_recipe n) (recipe_is_mock n).

Lemma probe_repo_self st r :
  repos (probe_repo fs work_dir st r) !! name r = Some (state_of (name r)).
Proof.
  unfold probe_repo, state_of, final_state, recipe_is_mock, has_recipe,
    folder_of.
  repeat case_match; simpl; by rewrite lookup_insert_eq.
Qed.

Lemma probe_repo_other st r k :
  k ≠ name r →
  repos (probe_repo fs work_dir st r) !! k = repos st !! k.
Proof.
  intros Hk. unfold probe_repo.
  repeat case_match; simpl; by rewrite ?lookup_insert_ne.
Qed.

Lemma probe_repo_alerts st r :
  ∃ extra, alerts (probe_repo fs work_dir st r) = alerts st ++ extra.
Proof.
  unfold probe_repo.
  repeat case_match; simpl; rewrite <- ?(assoc_L (++));
    try (by eexists); by exists []; rewrite app_nil_r.
Qed.

Lemma foldl_probe_repo_other rs st k :
  k ∉ map name rs →
  repos (foldl (probe_repo fs work_dir) st rs) !! k = repos st !! k.
Proof.
  revert st. induction rs as [|r rs IH]; intros st Hk; [done|].
  simpl in *. apply not_elem_of_cons in Hk as [Hk1 Hk2].
  by rewrite IH, probe_repo_other.
Qed.

Lemma foldl_probe_repo_state rs st k :
  k ∈ map name rs →
  repos (foldl (probe_repo fs work_dir) st rs) !! k = Some (state_of k).
Proof.
  revert st. induction rs as [|r rs IH]; intros st Hk.
  - by apply elem_of_nil in Hk.
  - simpl in *. destruct (decide (k ∈ map name rs)) as [Hin|Hout].
    + by apply IH.
    + rewrite foldl_probe_repo_other by done.
      apply elem_of_cons in Hk as [->|Hk]; [|done].
      apply probe_repo_self.
Qed.

Lemma foldl_probe_repo_alerts rs st :
  ∃ extra,
    alerts (foldl (probe_repo fs work_dir) st rs) = alerts st ++ extra.
Proof.
  revert st. induction rs as [|r rs IH]; intros st; simpl.
  - exists []. by rewrite app_nil_r.
  - destruct (IH (probe_repo fs work_dir st r)) as [e2 ->].
    destruct (probe_repo_alerts st r) as [e1 ->].
    exists (e1 ++ e2). by rewrite (assoc_L (++)).
Qed.

Lemma foldl_probe_container_repos out rs st :
  repos (foldl (probe_container out) st rs) = repos st
  ∧ alerts (foldl (probe_container out) st rs) = alerts st.
Proof.
  revert st. induction rs as [|r rs IH]; intros st; [done|].
  simpl. destruct (IH (probe_container out st r)) as [-> ->].
  unfold probe_container. by repeat case_match.
Qed.

(** The service part of the result is the loop over [REPOS]. *)
Lemma get_status_repos :
  ∃ st0, repos (get_status rt fs work_dir)
         = repos (foldl (probe_repo fs work_dir) st0 REPOS)
       ∧ alerts (get_status rt fs work_dir)
         = alerts (foldl (probe_repo fs work_dir) st0 REPOS)
       ∧ alerts st0 = [].
Proof.
  unfold get_status.
  set (st0 := match docker_version rt with
              | VersionOk => _ | _ => _ end).
  exists st0. assert (alerts st0 = []) by (subst st0; by case_match).
  destruct (FS.path_exists fs (work_dir </> "docker-compose.yml"));
    [|done].
  destruct (compose_ps rt fs work_dir) as [out|e]; [|done].
  destruct (foldl_probe_container_repos out REPOS
              (foldl (probe_repo fs work_dir) st0 REPOS)) as [E1 E2].
  unfold probe_database, set_container.
  by case_match; cbn [repos alerts]; rewrite E1, E2.
Qed.

Lemma get_status_state r :
  r ∈ REPOS →
  repos (get_status rt fs work_dir) !! name r = Some (state_of (name r)).
Proof.
  intros Hr. destruct get_status_repos as (st0 & -> & _).
  apply foldl_probe_repo_state, list_elem_of_fmap. eauto.
Qed.

End prober.

Section prober_claims.

Variables (rt : runtime) (fs : filesystem) (work_dir : path).

Definition alert_missing (n : string) : string :=
  "**" +:+ n +:+ "**: Folder missing entirely.".
Definition alert_corrupt (n : string) : string :=
  "**" +:+ n +:+ "**: Repository corrupt (No Dockerfile found).".

Lemma wf_child_missing p c :
  FS.wf fs → FS.path_exists fs p = false →
  FS.path_exists fs (p </> c) = false.
Proof.
  intros Hwf Hp. unfold FS.path_exists, sub. simpl.
  destruct (_ !! _) as [x|] eqn:E; [|done].
  apply Hwf in E. simpl in E. unfold FS.is_dir in E.
  unfold FS.path_exists in Hp. by destruct (FS.node_at fs p) as [[]|].
Qed.

Lemma is_mock_file_missing p :
  FS.path_exists fs p = false → is_mock_file fs p = false.
Proof. apply is_mock_file_never_raises. Qed.

Lemma probe_repo_missing_alerts st r :
  FS.wf fs → has_folder fs work_dir (name r) = false →
  alerts (probe_repo fs work_dir st r)
  = alerts st ++ [alert_missing (name r); alert_corrupt (name r)].
Proof.
  intros Hwf Hf. unfold probe_repo. unfold has_folder, folder_of in Hf.
  rewrite Hf. simpl negb. cbv iota.
  rewrite is_mock_file_missing by by apply wf_child_missing.
  rewrite wf_child_missing by done. simpl.
  by rewrite <- (assoc_L (++)).
Qed.

Lemma foldl_probe_repo_missing_alerts rs st r :
  FS.wf fs → has_folder fs work_dir (name r) = false → r ∈ rs →
  alert_missing (name r) ∈ alerts (foldl (probe_repo fs work_dir) st rs)
  ∧ alert_corrupt (name r)
    ∈ alerts (foldl (probe_repo fs work_dir) st rs).
Proof.
  intros Hwf Hf. revert st.
  induction rs as [|r' rs IH]; intros st Hr.
  - by apply elem_of_nil in Hr.
  - simpl. apply elem_of_cons in Hr as [<-|Hr]; [|by apply IH].
    destruct (foldl_probe_repo_alerts fs work_dir rs
                (probe_repo fs work_dir st r)) as [extra ->].
    rewrite probe_repo_missing_alerts by done.
    rewrite !elem_of_app, !elem_of_cons. split; left; right; auto.
Qed.

Lemma foldl_probe_container_other out rs st k :
  k ∉ map name rs →
  containers (foldl (probe_container out) st rs) !! k
  = containers st !! k.
Proof.
  revert st. induction rs as [|r rs IH]; intros st Hk; [done|].
  simpl in *. apply not_elem_of_cons in Hk as [Hk1 Hk2].
  rewrite IH by done. unfold probe_container.
  repeat case_match; simpl; by rewrite lookup_insert_ne.
Qed.

Lemma foldl_probe_container_state out rs st k :
  k ∈ map name rs →
  containers (foldl (probe_container out) st rs) !! k
  = Some (three_way (contains k out) (contains "Up" out)).
Proof.
  revert st. induction rs as [|r rs IH]; intros st Hk.
  - by apply elem_of_nil in Hk.
  - simpl in *. destruct (decide (k ∈ map name rs)) as [Hin|Hout].
    + by apply IH.
    + rewrite foldl_probe_container_other by done.
      apply elem_of_cons in Hk as [->|Hk]; [|done].
      unfold probe_container, three_way.
      repeat case_match; simpl; by rewrite lookup_insert_eq.
Qed.

Lemma get_status_containers out :
  FS.path_exists fs (work_dir </> "docker-compose.yml") = true →
  compose_ps rt fs work_dir = PsStdout out →
  ∃ st, get_status rt fs work_dir
        = probe_database out (foldl (probe_container out) st REPOS).
Proof. intros Hc Hps. unfold get_status. rewrite Hc, Hps. eauto. Qed.

End prober_claims.

(** C9. For every workspace, the prober reports for each configured
    service one state and only one, and it is one of the five defined
    states: the one the four tested facts determine. *)
Theorem prober_assigns_exactly_one_state
    (rt : runtime) (fs : filesystem) (work_dir : path) (r : Repo) :
  r ∈ REPOS →
  ∃ s : ServiceState,
    repos (get_status rt fs work_dir) !! name r = Some s
    ∧ (∀ s', repos (get_status rt fs work_dir) !! name r = Some s' → s' = s)
    ∧ s = final_state (has_folder fs work_dir (name r))
                      (has_vcs fs work_dir (name r))
                      (has_recipe fs work_dir (name r))
                      (recipe_is_mock fs work_dir (name r))
    ∧ s ∈ [Missing; NotVersionControlled; MockActive; Valid; Corrupt].
Proof.
  intros Hr. pose proof (get_status_state rt fs work_dir r Hr) as Hs.
  eexists. split; [exact Hs|]. split_and!.
  - intros s' Hs'. congruence.
  - reflexivity.
  - unfold state_of, final_state. repeat case_match;
      repeat first [apply list_elem_of_here | apply list_elem_of_further].
Qed.

Definition rt_idle : runtime :=
  {| docker_version := VersionFileNotFound;
     compose_ps := λ _ _, PsRaises FileNotFoundError |}.

Definition ds_repo : Repo :=
  {| name := "datasource";
     url := "https://github.com/ibm-live-project-interns/datasource.git" |}.

Lemma prober_assigns_exactly_one_state_witness :
  ∃ s : ServiceState,
    repos (get_status rt_idle ∅ WORK_DIR) !! "datasource" = Some s.
Proof.
  destruct (prober_assigns_exactly_one_state rt_idle ∅ WORK_DIR ds_repo)
    as (s & Hs & _).
  - unfold REPOS, ds_repo. apply elem_of_cons. by left.
  - exists s. exact Hs.
Defined.

(** C1 (as the code behaves). In a well-formed workspace, a service whose
    folder does not exist is finally reported as Corrupt, not Missing: the
    tentative Missing is overwritten by the recipe check that follows, and
    both the 'folder missing' and the 'corrupt' alerts are raised. *)
Theorem missing_folder_reported_corrupt
    (rt : runtime) (fs : filesystem) (work_dir : path) (r : Repo) :
  FS.wf fs → r ∈ REPOS →
  FS.path_exists fs (work_dir </> "services" </> name r) = false →
  repos (get_status rt fs work_dir) !! name r = Some Corrupt
  ∧ repos (get_status rt fs work_dir) !! name r ≠ Some Missing
  ∧ alert_missing (name r) ∈ alerts (get_status rt fs work_dir)
  ∧ alert_corrupt (name r) ∈ alerts (get_status rt fs work_dir).
Proof.
  intros Hwf Hr Hf.
  assert (repos (get_status rt fs work_dir) !! name r = Some Corrupt) as Hs.
  { rewrite get_status_state by done. unfold state_of, final_state.
    unfold recipe_is_mock, has_recipe, folder_of.
    rewrite is_mock_file_missing by by apply wf_child_missing.
    by rewrite wf_child_missing. }
  split; [done|]. split; [by rewrite Hs|].
  destruct (get_status_repos rt fs work_dir) as (st0 & _ & -> & _).
  by apply foldl_probe_repo_missing_alerts.
Qed.

Lemma wf_empty : FS.wf ∅.
Proof. apply map_Forall_empty. Qed.

Lemma missing_folder_reported_corrupt_witness :
  repos (get_status rt_idle ∅ WORK_DIR) !! "datasource" = Some Corrupt.
Proof.
  apply (missing_folder_reported_corrupt rt_idle ∅ WORK_DIR ds_repo).
  - exact wf_empty.
  - unfold REPOS, ds_repo. apply elem_of_cons. by left.
  - reflexivity.
Defined.

(** C3 (as the code behaves). When the status listing names postgres
    without any 'Up' marker, the datastore is reported NotCreated, where
    the three-way rule gives Stopped; every configured service is
    classified by the three-way rule. *)
Theorem datastore_never_reported_stopped
    (rt : runtime) (fs : filesystem) (work_dir : path) (output : string) :
  FS.path_exists fs (work_dir </> "docker-compose.yml") = true →
  compose_ps rt fs work_dir = PsStdout output →
  contains "postgres" output = true →
  contains "Up" output = false →
  containers (get_status rt fs work_dir) !! "database" = Some NotCreated
  ∧ three_way (contains "postgres" output) (contains "Up" output) = Stopped
  ∧ (∀ r, r ∈ REPOS →
       containers (get_status rt fs work_dir) !! name r
       = Some (three_way (contains (name r) output)
                         (contains "Up" output))).
Proof.
  intros Hc Hps Hpg Hup.
  destruct (get_status_containers rt fs work_dir output Hc Hps) as [st ->].
  unfold probe_database. rewrite Hpg, Hup. cbn [andb].
  unfold set_container. cbn [containers].
  split; [by rewrite lookup_insert_eq|]. split; [done|].
  intros r Hr. rewrite lookup_insert_ne.
  - rewrite (foldl_probe_container_state output REPOS st (name r)).
    + by unfold three_way; rewrite Hup.
    + apply list_elem_of_fmap. eauto.
  - intros Heq. unfold REPOS in Hr.
    repeat (apply elem_of_cons in Hr as [->|Hr]; [by inversion Heq|]).
    by apply elem_of_nil in Hr.
Qed.

Definition listing_stopped : string :=
  "NAME              IMAGE                STATUS" +:+ nl +:+
  "prod-postgres-1   postgres:15-alpine   Exited (0) 2 hours ago" +:+ nl +:+
  "prod-ui-1         prod-ui              Exited (137) 2 hours ago" +:+ nl.

Definition rt_stopped : runtime :=
  {| docker_version := VersionOk;
     compose_ps := λ _ _, PsStdout listing_stopped |}.

Definition fs_provisioned : filesystem :=
  {[ WORK_DIR := Dir; compose_file := File "" ]}.

Lemma datastore_never_reported_stopped_witness :
  containers (get_status rt_stopped fs_provisioned WORK_DIR) !! "database"
  = Some NotCreated
  ∧ containers (get_status rt_stopped fs_provisioned WORK_DIR) !! "ui"
    = Some Stopped.
Proof.
  destruct (datastore_never_reported_stopped rt_stopped fs_provisioned
              WORK_DIR listing_stopped) as (Hdb & _ & Hsvc);
    [reflexivity..|].
  split; [exact Hdb|].
  apply (Hsvc {| name := "ui";
           url := "https://github.com/ibm-live-project-interns/ui.git" |}).
  unfold REPOS. do 3 apply list_elem_of_further. apply list_elem_of_here.
Defined.

(** ** The process runner *)

Section process_runner.

Lemma foldl_push_sink w evs :
  w_fs (foldl push_sink w evs) = w_fs w
  ∧ w_logs (foldl push_sink w evs) = w_logs w
  ∧ w_sink (foldl push_sink w evs) = w_sink w ++ evs
  ∧ w_ui (foldl push_sink w evs) = w_ui w
  ∧ w_popen (foldl push_sink w evs) = w_popen w.
Proof.
  revert w. induction evs as [|e evs IH]; intros w; simpl.
  - by rewrite app_nil_r.
  - destruct (IH (push_sink w e)) as (-> & -> & -> & -> & ->). simpl.
    by rewrite <- (assoc_L (++)).
Qed.

Variables (h : host) (cmd : string) (cwd : path).

Lemma stream_command_missing_cwd w :
  FS.path_exists (w_fs w) cwd = false →
  stream_command h cmd cwd w
  = Ok false (push_sink w (SinkError ("❌ Path not found: "
                                      +:+ str_path h cwd))).
Proof.
  intros Hc. unfold stream_command, query, mbind, M_bind. by rewrite Hc.
Qed.

Lemma stream_command_exited w out code fs' :
  FS.path_exists (w_fs w) cwd = true →
  popen h cmd cwd (w_fs w) = Exited out code fs' →
  stream_command h cmd cwd w
  = Ok (bool_decide (code = 0%Z))
       (foldl push_sink (with_fs (push_popen w (cmd, cwd)) fs')
              (stream_lines "" out)).
Proof.
  intros Hc Hp.
  unfold stream_command, query, mbind, M_bind, try_except.
  rewrite Hc. simpl. by rewrite Hp.
Qed.

Lemma stream_command_failed w out e fs' :
  FS.path_exists (w_fs w) cwd = true →
  popen h cmd cwd (w_fs w) = Failed out e fs' →
  stream_command h cmd cwd w
  = Ok false
       (push_sink
          (foldl push_sink (with_fs (push_popen w (cmd, cwd)) fs')
                 (stream_lines "" out))
          (SinkError ("❌ Error: " +:+ str_exn e))).
Proof.
  intros Hc Hp.
  unfold stream_command, query, mbind, M_bind, try_except.
  rewrite Hc. simpl. by rewrite Hp.
Qed.

(** The runner never raises. *)
Lemma stream_command_returns w :
  ∃ b w', stream_command h cmd cwd w = Ok b w'.
Proof.
  destruct (FS.path_exists (w_fs w) cwd) eqn:Hc.
  - destruct (popen h cmd cwd (w_fs w)) as [out code fs'|out e fs'] eqn:Hp.
    + erewrite stream_command_exited by done. eauto.
    + erewrite stream_command_failed by done. eauto.
  - rewrite stream_command_missing_cwd by done. eauto.
Qed.

End process_runner.


Definition host_failing : host :=
  {| cwd_str := "/home/dev/infra";
     clock := λ _, "12:00:00";
     popen := λ cmd _ fs,
       if String.eqb cmd "git pull"
       then Failed [] (SpawnError "Permission denied") fs
       else Exited ["fatal: unable to access remote" +:+ nl] 128 fs;
     remove_error := λ _ _, None |}.

(** The same host on a read-only workspace: every deletion is refused. *)
Definition host_read_only : host :=
  {| cwd_str := cwd_str host_failing;
     clock := clock host_failing;
     popen := popen host_failing;
     remove_error := λ _ _, Some PermissionError |}.


(** ** Reasoning about runs *)

Definition final_world {A} (r : result A) : world :=
  match r with Ok _ w => w | Raised _ w => w end.

(** [ensures R m]: however [m] ends, normally or by an exception, the
    world it leaves is related by [R] to the one it started in. *)
Definition ensures {A} (R : relation world) (m : M A) : Prop :=
  ∀ w, R w (final_world (m w)).

Section ensures_rules.

Context (R : relation world) `{!PreOrder R}.

Lemma ensures_ret {A} (a : A) : ensures R (mret a).
Proof. intros w. simpl. reflexivity. Qed.

Lemma ensures_pass : ensures R pass.
Proof. apply ensures_ret. Qed.

Lemma ensures_return {A} (a : A) : ensures R (return_ a).
Proof. apply ensures_ret. Qed.

Lemma ensures_bind {A B} (m : M A) (f : A → M B) :
  ensures R m → (∀ a, ensures R (f a)) → ensures R (m ≫= f).
Proof.
  intros Hm Hf w. unfold mbind, M_bind. specialize (Hm w).
  destruct (m w) as [a w1|e w1]; simpl in *; [|done].
  etrans; [exact Hm|apply Hf].
Qed.

Lemma ensures_try_except {A} (m : M A) (handler : exn → M A) :
  ensures R m → (∀ e, ensures R (handler e)) →
  ensures R (try_except m handler).
Proof.
  intros Hm Hh w. unfold try_except. specialize (Hm w).
  destruct (m w) as [a w1|e w1]; simpl in *; [done|].
  etrans; [exact Hm|apply Hh].
Qed.

Lemma ensures_query {A} (f : filesystem → A) : ensures R (query f).
Proof. intros w. simpl. reflexivity. Qed.

Lemma ensures_query_raising {A} (f : filesystem → exn + A) :
  ensures R (query_raising f).
Proof.
  intros w. unfold query_raising. destruct (f (w_fs w)); simpl; reflexivity.
Qed.

Lemma ensures_for_each {A} (body : A → M unit) (l : list A) :
  (∀ x, ensures R (body x)) → ensures R (for_each body l).
Proof.
  intros Hb. induction l as [|x l IH]; simpl.
  - by apply ensures_ret.
  - by apply ensures_bind.
Qed.

End ensures_rules.

(** Inversion of a normal result through the sequencing operator. *)
Lemma bind_Ok {A B} (m : M A) (f : A → M B) w b w' :
  (m ≫= f) w = Ok b w' → ∃ a w1, m w = Ok a w1 ∧ f a w1 = Ok b w'.
Proof.
  unfold mbind, M_bind. destruct (m w) as [a w1|e w1]; [eauto|done].
Qed.


Ltac ensures_with leaf :=
  repeat lazymatch goal with
    | |- ensures _ (_ ≫= _) => apply ensures_bind; [apply _| |intros ?]
    | |- ensures _ (if ?b then _ else _) => destruct b
    | |- ensures _ (try_except _ _) =>
        apply ensures_try_except; [apply _| |intros ?]
    | |- ensures _ (for_each _ _) =>
        apply ensures_for_each; [apply _|intros ?]
    | |- ensures _ pass => apply ensures_pass; apply _
    | |- ensures _ (return_ _) => apply ensures_return; apply _
    | |- ensures _ (query _) => apply ensures_query; apply _
    | |- ensures _ (query_raising _) => apply ensures_query_raising; apply _
    | |- ensures _ _ => leaf
    end.

(** *** The log only grows *)

Definition logs_grow (w w' : world) : Prop :=
  w_logs w `prefix_of` w_logs w'.

Global Instance logs_grow_preorder : PreOrder logs_grow.
Proof.
  split.
  - intros w. unfold logs_grow. reflexivity.
  - intros w1 w2 w3. unfold logs_grow. by etrans.
Qed.

Section logs.

Lemma ensures_logs_log msg : ensures logs_grow (log msg).
Proof. intros w. unfold logs_grow. simpl. by apply prefix_app_r. Qed.

Lemma ensures_logs_update_fs f : ensures logs_grow (update_fs f).
Proof.
  intros w. unfold update_fs, logs_grow.
  by destruct (f (w_fs w)).
Qed.

Lemma ensures_logs_emit_sink e : ensures logs_grow (emit_sink e).
Proof. intros w. by unfold logs_grow. Qed.

Lemma ensures_logs_emit_ui e : ensures logs_grow (emit_ui e).
Proof. intros w. by unfold logs_grow. Qed.

Lemma stream_command_logs h cmd cwd w b w' :
  stream_command h cmd cwd w = Ok b w' → w_logs w' = w_logs w.
Proof.
  destruct (FS.path_exists (w_fs w) cwd) eqn:Hc.
  - destruct (popen h cmd cwd (w_fs w)) as [out code fs'|out e fs'] eqn:Hp.
    + erewrite stream_command_exited by done. intros [= <- <-].
      by destruct (foldl_push_sink (with_fs (push_popen w (cmd, cwd)) fs')
                     (stream_lines "" out)) as (_ & -> & _).
    + erewrite stream_command_failed by done. intros [= <- <-]. simpl.
      by destruct (foldl_push_sink (with_fs (push_popen w (cmd, cwd)) fs')
                     (stream_lines "" out)) as (_ & -> & _).
  - rewrite stream_command_missing_cwd by done. by intros [= <- <-].
Qed.

Lemma ensures_logs_stream_command h cmd cwd :
  ensures logs_grow (stream_command h cmd cwd).
Proof.
  intros w. destruct (stream_command_returns h cmd cwd w) as (b & w' & E).
  rewrite E. simpl. unfold logs_grow.
  by rewrite (stream_command_logs _ _ _ _ _ _ E).
Qed.

End logs.

Ltac ensures_logs_leaf :=
  idtac;
  lazymatch goal with
  | |- ensures _ (log _) => apply ensures_logs_log
  | |- ensures _ (update_fs _) => apply ensures_logs_update_fs
  | |- ensures _ (emit_sink _) => apply ensures_logs_emit_sink
  | |- ensures _ (emit_ui _) => apply ensures_logs_emit_ui
  | |- ensures _ (stream_command _ _ _) => apply ensures_logs_stream_command
  end.

Ltac ensures_logs := ensures_with ensures_logs_leaf.

Section logs_of_steps.

Variable h : host.

Lemma ensures_logs_clone_or_update r :
  ensures logs_grow (clone_or_update h r).
Proof. unfold clone_or_update. ensures_logs. Qed.

Lemma ensures_logs_final_validation r :
  ensures logs_grow (final_validation r).
Proof. unfold final_validation. ensures_logs. Qed.

Lemma ensures_logs_manage_repo r : ensures logs_grow (manage_repo h r).
Proof.
  unfold manage_repo.
  ensures_with ltac:(idtac; lazymatch goal with
    | |- ensures _ (update_fs _) => apply ensures_logs_update_fs
    | |- ensures _ (clone_or_update _ _) =>
        apply ensures_logs_clone_or_update
    | |- ensures _ (final_validation _) =>
        apply ensures_logs_final_validation
    end).
Qed.

Lemma ensures_logs_step5 : ensures logs_grow step5_env.
Proof. unfold step5_env. ensures_logs. Qed.

Lemma ensures_logs_step6 : ensures logs_grow (step6_launch h).
Proof. unfold step6_launch. ensures_logs. Qed.

End logs_of_steps.

(** ** Step 1: directory setup *)

Section directory_setup.

Variable h : host.

Lemma step1_existing_root w :
  FS.path_exists (w_fs w) WORK_DIR = true →
  step1_directories h w = Ok tt w.
Proof.
  intros Hroot. unfold step1_directories, mbind, M_bind, query.
  by rewrite Hroot.
Qed.

Lemma wf_absent_child (fs : filesystem) p c :
  FS.wf fs → fs !! p = None → p ≠ [] → fs !! (p </> c) = None.
Proof.
  intros Hwf Hp Hne. destruct (fs !! (p </> c)) as [x|] eqn:E; [|done].
  apply Hwf in E. simpl in E. unfold FS.is_dir, FS.node_at in E.
  destruct p; [done|]. simpl in E. by rewrite Hp in E.
Qed.

Lemma step1_fresh_root w :
  FS.wf (w_fs w) → FS.path_exists (w_fs w) WORK_DIR = false →
  ∃ w', step1_directories h w = Ok tt w'
        ∧ w_fs w' = <[WORK_DIR </> "_failsafe" := Dir]>
                      (<[WORK_DIR </> "services" := Dir]>
                         (<[WORK_DIR := Dir]> (w_fs w))).
Proof.
  intros Hwf Hroot.
  assert (w_fs w !! WORK_DIR = None) as Hnone.
  { unfold FS.path_exists, FS.node_at, WORK_DIR, sub in Hroot.
    by destruct (w_fs w !! _) eqn:E. }
  pose proof (wf_absent_child _ _ "services" Hwf Hnone) as Hs.
  pose proof (wf_absent_child _ _ "_failsafe" Hwf Hnone) as Hf.
  unfold step1_directories, mbind, M_bind, query.
  rewrite Hroot. cbn [negb]. unfold log, update_fs.
  cbn [w_fs with_logs push_sink push_ui with_fs].
  unfold FS.mkdir_parents. unfold WORK_DIR, BASE_DIR, sub in *.
  rewrite Hnone. cbn [w_fs with_logs push_sink push_ui with_fs].
  unfold FS.mkdir, FS.node_at.
  rewrite lookup_insert_eq, lookup_insert_ne by done.
  rewrite Hs by done.
  cbn [w_fs with_logs push_sink push_ui with_fs].
  rewrite lookup_insert_ne, lookup_insert_eq by done.
  rewrite !lookup_insert_ne by done. rewrite Hf by done.
  eexists. split; reflexivity.
Qed.

End directory_setup.

(** C6 (amended). Step 1 creates the workspace root, [services/] and
    [_failsafe/] when the workspace root does not exist; when the root
    already exists, step 1 leaves the world as it is, whether or not the
    two subdirectories exist. *)
Theorem step1_creates_directories_for_fresh_root (h : host) (w : world) :
  (FS.wf (w_fs w) → FS.path_exists (w_fs w) WORK_DIR = false →
     ∃ w', step1_directories h w = Ok tt w'
           ∧ FS.is_dir (w_fs w') WORK_DIR = true
           ∧ FS.is_dir (w_fs w') (WORK_DIR </> "services") = true
           ∧ FS.is_dir (w_fs w') (WORK_DIR </> "_failsafe") = true)
  ∧ (FS.path_exists (w_fs w) WORK_DIR = true →
     step1_directories h w = Ok tt w).
Proof.
  split.
  - intros Hwf Hroot.
    destruct (step1_fresh_root h w Hwf Hroot) as (w' & Hrun & Hfs).
    exists w'. split; [done|]. rewrite Hfs.
    unfold FS.is_dir, FS.node_at, WORK_DIR, BASE_DIR, sub.
    split_and!; rewrite ?lookup_insert_ne by done;
      by rewrite lookup_insert_eq.
  - apply step1_existing_root.
Qed.

Definition fs_bare_root : filesystem := {[ WORK_DIR := Dir ]}.

Lemma step1_creates_directories_for_fresh_root_witness :
  (∃ w', step1_directories host_failing (initial_world ∅) = Ok tt w'
         ∧ FS.is_dir (w_fs w') (WORK_DIR </> "services") = true)
  ∧ step1_directories host_failing (initial_world fs_bare_root)
    = Ok tt (initial_world fs_bare_root).
Proof.
  split.
  - destruct (step1_creates_directories_for_fresh_root host_failing
                (initial_world ∅)) as [Hfresh _].
    destruct Hfresh as (w' & Hrun & _ & Hs & _);
      [exact wf_empty|reflexivity|].
    exists w'. split; [exact Hrun|exact Hs].
  - apply (step1_creates_directories_for_fresh_root host_failing
             (initial_world fs_bare_root)).
    reflexivity.
Defined.

(** C6, counterexample: with a workspace root that exists without its
    subdirectories, neither [services/] nor [_failsafe/] exists after
    step 1. *)
Lemma step1_skips_subdirectories_of_existing_root :
  ∃ w', step1_directories host_failing (initial_world fs_bare_root)
        = Ok tt w'
        ∧ FS.path_exists (w_fs w') WORK_DIR = true
        ∧ FS.path_exists (w_fs w') (WORK_DIR </> "services") = false
        ∧ FS.path_exists (w_fs w') (WORK_DIR </> "_failsafe") = false.
Proof. eexists. split; [reflexivity|]. by vm_compute. Qed.

(** ** The secrets file *)

(** The filesystem a spawned command leaves. *)
Definition outcome_fs (o : proc_outcome) : filesystem :=
  match o with
  | Exited _ _ fs' => fs'
  | Failed _ _ fs' => fs'
  end.

(** The external commands do not create, change or delete [.env]. *)
Definition leaves_env_alone (h : host) : Prop :=
  ∀ cmd cwd fs, outcome_fs (popen h cmd cwd fs) !! env_file = fs !! env_file.

Definition env_same (w w' : world) : Prop :=
  w_fs w' !! env_file = w_fs w !! env_file.

Definition env_kept (w w' : world) : Prop :=
  ∀ n, w_fs w !! env_file = Some n → w_fs w' !! env_file = Some n.

Global Instance env_same_preorder : PreOrder env_same.
Proof.
  split.
  - by intros w.
  - intros w1 w2 w3 H12 H23. unfold env_same in *. congruence.
Qed.

Global Instance env_kept_preorder : PreOrder env_kept.
Proof.
  split.
  - by intros w n.
  - intros w1 w2 w3 H12 H23 n Hn. by apply H23, H12.
Qed.

Lemma ensures_weaken {A} (R R' : relation world) (m : M A) :
  (∀ w w', R w w' → R' w w') → ensures R m → ensures R' m.
Proof. intros HR Hm w. apply HR, Hm. Qed.

Lemma env_same_kept w w' : env_same w w' → env_kept w w'.
Proof. intros H n Hn. unfold env_same in H. congruence. Qed.

Section fs_frame.

Variables (fs fs' : filesystem) (q : path).

Lemma write_text_other p c :
  FS.write_text fs p c = inr fs' → q ≠ p → fs' !! q = fs !! q.
Proof.
  unfold FS.write_text. intros H Hq.
  repeat case_match; simplify_eq; by rewrite lookup_insert_ne.
Qed.

Lemma mkdir_other p :
  FS.mkdir fs p = inr fs' → q ≠ p → fs' !! q = fs !! q.
Proof.
  unfold FS.mkdir. intros H Hq.
  repeat case_match; simplify_eq; by rewrite ?lookup_insert_ne.
Qed.

Lemma remove_other p :
  FS.remove fs p = inr fs' → q ≠ p → fs' !! q = fs !! q.
Proof.
  unfold FS.remove. intros H Hq.
  repeat case_match; simplify_eq; by rewrite lookup_delete_ne.
Qed.

Lemma os_remove_other h p :
  os_remove h fs p = inr fs' → q ≠ p → fs' !! q = fs !! q.
Proof.
  unfold os_remove. destruct (remove_error h p fs); [done|].
  apply remove_other.
Qed.

Lemma copy_other src dst :
  FS.copy fs src dst = inr fs' → q ≠ dst → (∀ c, q ≠ dst </> c) →
  fs' !! q = fs !! q.
Proof.
  unfold FS.copy. intros H Hq Hq'.
  repeat case_match; simplify_eq; by rewrite lookup_insert_ne.
Qed.

End fs_frame.

Lemma mkdir_parents_other (fs fs' : filesystem) (q p : path) :
  FS.mkdir_parents fs p = inr fs' → ¬ q `suffix_of` p → fs' !! q = fs !! q.
Proof.
  revert fs'. induction p as [|c p IH]; intros fs' H Hq; simpl in H.
  - by simplify_eq.
  - destruct (fs !! (c :: p)) as [[]|] eqn:E; simplify_eq; [done|].
    destruct (FS.mkdir_parents fs p) as [e|fs1] eqn:E1.
    { by destruct e. }
    simplify_eq. rewrite lookup_insert_ne.
    + apply IH; [done|]. intros Hs. apply Hq. by apply suffix_cons_r.
    + intros <-. by apply Hq.
Qed.

Lemma env_not_above_work_dir : ¬ env_file `suffix_of` WORK_DIR.
Proof. intros [k Hk]. by destruct k as [|a [|b k]]. Qed.

Lemma env_not_above_failsafe :
  ¬ env_file `suffix_of` (WORK_DIR </> "_failsafe").
Proof. intros [k Hk]. by destruct k as [|a [|b [|c k]]]. Qed.

Lemma env_not_above_service n :
  ¬ env_file `suffix_of` (WORK_DIR </> "services" </> n).
Proof. intros [k Hk]. by destruct k as [|a [|b [|c [|d k]]]]. Qed.

Section env_of_steps.

Lemma ensures_env_log msg : ensures env_same (log msg).
Proof. by intros w. Qed.

Lemma ensures_env_emit_sink e : ensures env_same (emit_sink e).
Proof. by intros w. Qed.

Lemma ensures_env_emit_ui e : ensures env_same (emit_ui e).
Proof. by intros w. Qed.

Lemma ensures_env_update_fs f :
  (∀ fs fs', f fs = inr fs' → fs' !! env_file = fs !! env_file) →
  ensures env_same (update_fs f).
Proof.
  intros Hf w. unfold update_fs.
  destruct (f (w_fs w)) as [e|fs'] eqn:E; [done|].
  unfold env_same. simpl. by apply Hf.
Qed.

Variable h : host.
Hypothesis Hframe : leaves_env_alone h.

Lemma ensures_env_stream_command cmd cwd :
  ensures env_same (stream_command h cmd cwd).
Proof.
  intros w. unfold env_same.
  destruct (FS.path_exists (w_fs w) cwd) eqn:Hc.
  - pose proof (Hframe cmd cwd (w_fs w)) as Hf.
    destruct (popen h cmd cwd (w_fs w)) as [out code fs'|out e fs'] eqn:Hp.
    + erewrite stream_command_exited by done. simpl.
      by destruct (foldl_push_sink (with_fs (push_popen w (cmd, cwd)) fs')
                     (stream_lines "" out)) as (-> & _).
    + erewrite stream_command_failed by done. simpl.
      by destruct (foldl_push_sink (with_fs (push_popen w (cmd, cwd)) fs')
                     (stream_lines "" out)) as (-> & _).
  - by rewrite stream_command_missing_cwd.
Qed.

End env_of_steps.

Ltac ensures_env_leaf Hframe :=
  idtac;
  lazymatch goal with
  | |- ensures _ (log _) => apply ensures_env_log
  | |- ensures _ (emit_sink _) => apply ensures_env_emit_sink
  | |- ensures _ (emit_ui _) => apply ensures_env_emit_ui
  | |- ensures _ (stream_command _ _ _) =>
      apply ensures_env_stream_command; exact Hframe
  | |- ensures _ (update_fs (λ fs, FS.write_text fs _ _)) =>
      apply ensures_env_update_fs; intros ? ? ?;
      eapply write_text_other; [eassumption|done]
  | |- ensures _ (update_fs (λ fs, FS.mkdir fs _)) =>
      apply ensures_env_update_fs; intros ? ? ?;
      eapply mkdir_other; [eassumption|done]
  | |- ensures _ (update_fs (λ fs, os_remove _ fs _)) =>
      apply ensures_env_update_fs; intros ? ? ?;
      eapply os_remove_other; [eassumption|done]
  | |- ensures _ (update_fs (λ fs, FS.copy fs _ _)) =>
      apply ensures_env_update_fs; intros ? ? ?;
      eapply copy_other; [eassumption|done|done]
  | |- ensures _ (update_fs (λ fs, FS.mkdir_parents fs _)) =>
      apply ensures_env_update_fs; intros ? ? ?;
      eapply mkdir_parents_other;
      [eassumption
      |first [ apply env_not_above_work_dir | apply env_not_above_failsafe
             | apply env_not_above_service ]]
  end.

Section env_of_run.

Variable h : host.
Hypothesis Hframe : leaves_env_alone h.

Lemma ensures_env_step1 : ensures env_same (step1_directories h).
Proof.
  unfold step1_directories. ensures_with ltac:(ensures_env_leaf Hframe).
Qed.

Lemma ensures_env_step2 : ensures env_same step2_compose.
Proof.
  unfold step2_compose. ensures_with ltac:(ensures_env_leaf Hframe).
Qed.

Lemma ensures_env_step3 : ensures env_same step3_mock.
Proof.
  unfold step3_mock. ensures_with ltac:(ensures_env_leaf Hframe).
Qed.

Lemma ensures_env_manage_repo r : ensures env_same (manage_repo h r).
Proof.
  unfold manage_repo, clone_or_update, final_validation.
  ensures_with ltac:(ensures_env_leaf Hframe).
Qed.

Lemma ensures_env_step6 : ensures env_same (step6_launch h).
Proof.
  unfold step6_launch. ensures_with ltac:(ensures_env_leaf Hframe).
Qed.

End env_of_run.

(** ** The whole run *)

Definition start_msg (h : host) : string :=
  "--- STARTED AT " +:+ clock h 0 +:+ " ---".
Definition creating_msg (h : host) : string :=
  "📂 Creating workspace: " +:+ str_path h WORK_DIR.
Definition generating_msg : string :=
  "📄 Generating dynamic docker-compose.yml...".
Definition write_error_msg (e : exn) : string :=
  "❌ Error writing compose file: " +:+ str_exn e.
Definition launch_msg : string := "🐳 Building & Starting Containers...".
Definition launch_cmd : string :=
  "docker compose up -d --build --remove-orphans".

Section run_structure.

Variable h : host.

Lemma ensures_Ok {A} (R : relation world) (m : M A) w a w' :
  ensures R m → m w = Ok a w' → R w w'.
Proof. intros Hm E. specialize (Hm w). by rewrite E in Hm. Qed.

Lemma update_fs_Ok f w w' :
  update_fs f w = Ok tt w' →
  ∃ fs', f (w_fs w) = inr fs' ∧ w' = with_fs w fs'.
Proof.
  unfold update_fs. destruct (f (w_fs w)) as [e|fs'] eqn:E; [done|].
  intros [= <-]. eauto.
Qed.

Lemma app_neq_by_prefix lit x t :
  String.prefix lit t = false → lit +:+ x ≠ t.
Proof.
  intros Hp <-. assert (String.prefix lit (lit +:+ x) = true) as Ht.
  { apply prefix_app. eauto. }
  congruence.
Qed.

Lemma step1_logs w w1 :
  step1_directories h w = Ok tt w1 →
  w_logs w1 = w_logs w ∨ w_logs w1 = w_logs w ++ [creating_msg h].
Proof.
  unfold step1_directories. intros Hrun.
  apply bind_Ok in Hrun as (b & w0 & Hq & Hrun).
  unfold query in Hq. injection Hq as <- <-.
  destruct (FS.path_exists (w_fs w) WORK_DIR); simpl in Hrun.
  - injection Hrun as <-. by left.
  - right. apply bind_Ok in Hrun as ([] & wa & Hlog & Hrun).
    apply bind_Ok in Hrun as ([] & wb & H1 & Hrun).
    apply bind_Ok in Hrun as ([] & wc & H2 & H3).
    apply update_fs_Ok in H1 as (? & _ & ->).
    apply update_fs_Ok in H2 as (? & _ & ->).
    apply update_fs_Ok in H3 as (? & _ & ->).
    unfold log in Hlog. by injection Hlog as <-.
Qed.

Lemma step2_logs_aborted w1 w2 :
  step2_compose w1 = Ok false w2 →
  ∃ e, w_logs w2 = w_logs w1 ++ [generating_msg; write_error_msg e]
       ∧ w_fs w2 = w_fs w1 ∧ w_popen w2 = w_popen w1.
Proof.
  unfold step2_compose, mbind, M_bind, log, try_except, update_fs.
  cbn [w_fs with_logs push_sink push_ui with_fs w_logs].
  destruct (FS.write_text _ _ _) as [e|fs']; [|done].
  intros [= <-]. exists e. simpl. by rewrite <- (assoc_L (++)).
Qed.

Lemma launch_msg_not_in_aborted_logs e :
  launch_msg ∉ [start_msg h; creating_msg h; generating_msg;
                write_error_msg e].
Proof.
  rewrite !not_elem_of_cons. split_and!; try apply not_elem_of_nil.
  - intros E. symmetry in E. by eapply app_neq_by_prefix in E.
  - intros E. symmetry in E. by eapply app_neq_by_prefix in E.
  - by vm_compute.
  - intros E. symmetry in E. by eapply app_neq_by_prefix in E.
Qed.

(** A run whose log holds the launch message went through all six
    steps. *)
Lemma run_bootstrap_launched w0 w' :
  run_bootstrap h w0 = Ok tt w' → launch_msg ∈ w_logs w' →
  ∃ w1 w2 w3 w4 w5,
    step1_directories h (with_logs w0 [start_msg h]) = Ok tt w1
    ∧ step2_compose w1 = Ok true w2
    ∧ step3_mock w2 = Ok tt w3
    ∧ for_each (manage_repo h) REPOS w3 = Ok tt w4
    ∧ step5_env w4 = Ok tt w5
    ∧ step6_launch h w5 = Ok tt w'.
Proof.
  unfold run_bootstrap. fold (start_msg h). intros Hrun Hlaunch.
  apply bind_Ok in Hrun as ([] & w1 & H1 & Hrun).
  apply bind_Ok in Hrun as (c & w2 & H2 & Hrun).
  destruct c.
  - apply bind_Ok in Hrun as ([] & w3 & H3 & Hrun).
    apply bind_Ok in Hrun as ([] & w4 & H4 & Hrun).
    apply bind_Ok in Hrun as ([] & w5 & H5 & H6).
    by exists w1, w2, w3, w4, w5.
  - injection Hrun as <-. exfalso.
    apply step2_logs_aborted in H2 as (e & Hl2 & _).
    apply (launch_msg_not_in_aborted_logs e).
    rewrite Hl2 in Hlaunch.
    apply step1_logs in H1 as [Hl1|Hl1]; rewrite Hl1 in Hlaunch;
      simpl in Hlaunch;
      rewrite ?elem_of_app, !elem_of_cons, !elem_of_nil in Hlaunch;
      rewrite !elem_of_cons; tauto.
Qed.

Lemma step6_logs_launch w5 w' :
  step6_launch h w5 = Ok tt w' → launch_msg ∈ w_logs w'.
Proof.
  unfold step6_launch. fold launch_msg. intros Hrun.
  apply bind_Ok in Hrun as ([] & wl & Hlog & Hrun).
  apply bind_Ok in Hrun as (b & w6 & Hcmd & Hrun).
  apply stream_command_logs in Hcmd.
  unfold log in Hlog. injection Hlog as <-. simpl in Hcmd.
  destruct b; unfold mbind, M_bind, log, emit_ui in Hrun;
    injection Hrun as <-; simpl; rewrite Hcmd;
    apply elem_of_app; left; apply elem_of_app; right;
    apply list_elem_of_here.
Qed.

(** A run that returns without the launch message in its log returned at
    step 2. *)
Lemma run_bootstrap_stopped w0 w' :
  run_bootstrap h w0 = Ok tt w' → launch_msg ∉ w_logs w' →
  ∃ w1, step1_directories h (with_logs w0 [start_msg h]) = Ok tt w1
        ∧ step2_compose w1 = Ok false w'.
Proof.
  unfold run_bootstrap. fold (start_msg h). intros Hrun Hlaunch.
  apply bind_Ok in Hrun as ([] & w1 & H1 & Hrun).
  apply bind_Ok in Hrun as (c & w2 & H2 & Hrun).
  destruct c.
  - apply bind_Ok in Hrun as ([] & w3 & H3 & Hrun).
    apply bind_Ok in Hrun as ([] & w4 & H4 & Hrun).
    apply bind_Ok in Hrun as ([] & w5 & H5 & H6).
    by apply step6_logs_launch in H6.
  - injection Hrun as <-. by exists w1.
Qed.

End run_structure.

Section secrets.

Lemma step5_existing w :
  FS.path_exists (w_fs w) env_file = true → step5_env w = Ok tt w.
Proof.
  intros He. unfold step5_env, mbind, M_bind, query. by rewrite He.
Qed.

Lemma step5_absent w :
  FS.path_exists (w_fs w) env_file = false →
  FS.is_dir (w_fs w) WORK_DIR = true →
  step5_env w
  = Ok tt (with_fs w (<[env_file := File env_defaults]> (w_fs w))).
Proof.
  intros He Hd. unfold step5_env, mbind, M_bind, query. rewrite He.
  cbn [negb]. unfold update_fs, FS.write_text, env_file, sub.
  unfold FS.is_dir in Hd.
  destruct (FS.node_at (w_fs w) WORK_DIR) as [[]|]; try done.
  unfold FS.path_exists, FS.node_at, env_file, sub in He.
  by destruct (w_fs w !! _).
Qed.

Lemma step5_Ok_absent w w' :
  w_fs w !! env_file = None → step5_env w = Ok tt w' →
  w_fs w' !! env_file = Some (File env_defaults).
Proof.
  intros He. unfold step5_env, mbind, M_bind, query.
  unfold FS.path_exists, FS.node_at, env_file, sub in *. rewrite He.
  cbn [negb]. intros (fs' & Hw & ->)%update_fs_Ok.
  unfold FS.write_text in Hw.
  repeat case_match; simplify_eq. simpl. by rewrite lookup_insert_eq.
Qed.

Lemma ensures_env_step5 : ensures env_kept step5_env.
Proof.
  intros w n Hn. rewrite step5_existing; [done|].
  unfold FS.path_exists, FS.node_at, env_file, sub in *. by rewrite Hn.
Qed.

Variable h : host.
Hypothesis Hframe : leaves_env_alone h.

Lemma ensures_env_run : ensures env_kept (run_bootstrap h).
Proof.
  intros w. unfold run_bootstrap.
  match goal with
  | |- env_kept _ (final_world (?m ?w1)) =>
      assert (ensures env_kept m) as Hm; [|exact (Hm w1)]
  end.
  ensures_with ltac:(idtac; lazymatch goal with
    | |- ensures _ (step1_directories _) =>
        apply (ensures_weaken env_same);
        [apply env_same_kept|by apply ensures_env_step1]
    | |- ensures _ step2_compose =>
        apply (ensures_weaken env_same);
        [apply env_same_kept|by apply ensures_env_step2]
    | |- ensures _ step3_mock =>
        apply (ensures_weaken env_same);
        [apply env_same_kept|by apply ensures_env_step3]
    | |- ensures _ (manage_repo _ _) =>
        apply (ensures_weaken env_same);
        [apply env_same_kept|by apply ensures_env_manage_repo]
    | |- ensures _ step5_env => apply ensures_env_step5
    | |- ensures _ (step6_launch _) =>
        apply (ensures_weaken env_same);
        [apply env_same_kept|by apply ensures_env_step6]
    end).
Qed.

Lemma run_creates_env fs w' :
  fs !! env_file = None →
  run_bootstrap h (initial_world fs) = Ok tt w' →
  launch_msg ∈ w_logs w' →
  w_fs w' !! env_file = Some (File env_defaults).
Proof.
  intros He Hrun Hlaunch.
  destruct (run_bootstrap_launched h _ _ Hrun Hlaunch)
    as (w1 & w2 & w3 & w4 & w5 & H1 & H2 & H3 & H4 & H5 & H6).
  apply (ensures_Ok env_same) in H1; [|by apply ensures_env_step1].
  apply (ensures_Ok env_same) in H2; [|by apply ensures_env_step2].
  apply (ensures_Ok env_same) in H3; [|by apply ensures_env_step3].
  apply (ensures_Ok env_same) in H4;
    [|apply ensures_for_each; [apply _|intros r];
      by apply ensures_env_manage_repo].
  apply (ensures_Ok env_same) in H6; [|by apply ensures_env_step6].
  unfold env_same in *. simpl in H1. rewrite H6.
  apply (step5_Ok_absent w4); [|done]. congruence.
Qed.

Lemma run_skips_env fs w' :
  fs !! env_file = None →
  run_bootstrap h (initial_world fs) = Ok tt w' →
  launch_msg ∉ w_logs w' →
  w_fs w' !! env_file = None.
Proof.
  intros He Hrun Hlaunch.
  destruct (run_bootstrap_stopped h _ _ Hrun Hlaunch) as (w1 & H1 & H2).
  apply (ensures_Ok env_same) in H1; [|by apply ensures_env_step1].
  apply (ensures_Ok env_same) in H2; [|by apply ensures_env_step2].
  unfold env_same in *. simpl in H1. congruence.
Qed.

End secrets.

(** C8 (amended). Step 5 writes the fixed defaults, the three lines
    [ENV=dev], [POSTGRES_USER=admin] and [POSTGRES_PASSWORD=secret], to
    [.env] when the file does not exist and leaves the world untouched
    when it exists, whatever it holds.  Over a whole run whose external
    commands do not touch [.env]: an existing [.env] is the same at the
    end, however the run ends; a missing one holds the defaults at the
    end of every run that reaches the launch, and is still missing at the
    end of a run that returns before the launch, at the descriptor write
    error. *)
Theorem secrets_created_once_never_overwritten (h : host) :
  (∀ w, FS.path_exists (w_fs w) env_file = true → step5_env w = Ok tt w)
  ∧ (∀ w, FS.path_exists (w_fs w) env_file = false →
          FS.is_dir (w_fs w) WORK_DIR = true →
          step5_env w
          = Ok tt (with_fs w
                     (<[env_file
                        := File ("ENV=dev" +:+ nl +:+
                                 "POSTGRES_USER=admin" +:+ nl +:+
                                 "POSTGRES_PASSWORD=secret")]> (w_fs w))))
  ∧ (leaves_env_alone h →
     ∀ fs n, fs !! env_file = Some n →
       w_fs (final_world (run_bootstrap h (initial_world fs))) !! env_file
       = Some n)
  ∧ (leaves_env_alone h →
     ∀ fs w', fs !! env_file = None →
       run_bootstrap h (initial_world fs) = Ok tt w' →
       launch_msg ∈ w_logs w' →
       w_fs w' !! env_file
       = Some (File ("ENV=dev" +:+ nl +:+ "POSTGRES_USER=admin" +:+ nl +:+
                     "POSTGRES_PASSWORD=secret")))
  ∧ (leaves_env_alone h →
     ∀ fs w', fs !! env_file = None →
       run_bootstrap h (initial_world fs) = Ok tt w' →
       launch_msg ∉ w_logs w' →
       w_fs w' !! env_file = None).
Proof.
  split_and!.
  - apply step5_existing.
  - apply step5_absent.
  - intros Hframe fs n Hn.
    by apply (ensures_env_run h Hframe (initial_world fs)).
  - intros Hframe fs w'. by apply run_creates_env.
  - intros Hframe fs w'. by apply run_skips_env.
Qed.

Definition returns_normally {A} (r : result A) : bool :=
  match r with Ok _ _ => true | Raised _ _ => false end.

Lemma returns_normally_Ok (r : result unit) :
  returns_normally r = true → r = Ok tt (final_world r).
Proof. by destruct r as [[] w|e w]. Qed.

(** A host whose commands all succeed without touching any file. *)
Definition host_quiet : host :=
  {| cwd_str := "/home/dev/infra";
     clock := λ _, "12:00:00";
     popen := λ _ _ fs, Exited [] 0 fs;
     remove_error := λ _ _, None |}.

Definition fs_with_secrets : filesystem :=
  {[ WORK_DIR := Dir; env_file := File "ENV=prod" ]}.

(** A workspace in which the descriptor cannot be written: its path is a
    directory. *)
Definition fs_descriptor_dir : filesystem :=
  {[ WORK_DIR := Dir; compose_file := Dir ]}.

Lemma secrets_created_once_never_overwritten_witness :
  w_fs (final_world (run_bootstrap host_quiet
                       (initial_world fs_with_secrets))) !! env_file
  = Some (File "ENV=prod")
  ∧ w_fs (final_world (run_bootstrap host_quiet (initial_world ∅)))
      !! env_file
    = Some (File ("ENV=dev" +:+ nl +:+ "POSTGRES_USER=admin" +:+ nl +:+
                  "POSTGRES_PASSWORD=secret"))
  ∧ w_fs (final_world (run_bootstrap host_quiet
                         (initial_world fs_descriptor_dir))) !! env_file
    = None.
Proof.
  destruct (secrets_created_once_never_overwritten host_quiet)
    as (_ & _ & Hkeep & Hcreate & Hskip).
  assert (leaves_env_alone host_quiet) as Hframe by (by intros cmd cwd fs).
  split_and!.
  - apply (Hkeep Hframe fs_with_secrets). reflexivity.
  - apply (Hcreate Hframe ∅); [reflexivity| |].
    + apply returns_normally_Ok. vm_compute. reflexivity.
    + apply (bool_decide_unpack _). vm_compute. exact I.
  - apply (Hskip Hframe fs_descriptor_dir); [reflexivity| |].
    + apply returns_normally_Ok. vm_compute. reflexivity.
    + intros Hin. apply (bool_decide_pack _) in Hin. by vm_compute in Hin.
Defined.

(** C8, counterexample: in a workspace without [.env] whose descriptor
    path is a directory, the run returns normally at step 2 and no [.env]
    has been created. *)
Lemma secrets_not_created_when_descriptor_fails :
  fs_descriptor_dir !! env_file = None
  ∧ returns_normally
      (run_bootstrap host_quiet (initial_world fs_descriptor_dir)) = true
  ∧ w_fs (final_world (run_bootstrap host_quiet
                         (initial_world fs_descriptor_dir))) !! env_file
    = None.
Proof. split_and!; by vm_compute. Qed.

(** ** Fail-soft handling of the services *)

Definition dockerfile_of (r : Repo) : path :=
  WORK_DIR </> "services" </> name r </> "Dockerfile".



Section fail_soft.

Variable h : host.

Lemma bind_Ok_eq {A B : Type} (m : M A) (f : A → M B) w a w1 :
  m w = Ok a w1 → (m ≫= f) w = f a w1.
Proof. intros E. unfold mbind, M_bind. by rewrite E. Qed.



(** Whatever git does, the clone/update phase of a service whose folder
    is a directory returns normally. *)
Lemma bind_query {A B : Type} (f : filesystem → A) (k : A → M B) w :
  (query f ≫= k) w = k (f (w_fs w)) w.
Proof. reflexivity. Qed.

Lemma bind_log {B : Type} msg (k : unit → M B) w :
  (log msg ≫= k) w = k tt (final_world (log msg w)).
Proof. reflexivity. Qed.












End fail_soft.


Definition fs_mock_under_git : filesystem :=
  {[ WORK_DIR := Dir;
     WORK_DIR </> "services" := Dir;
     WORK_DIR </> "services" </> "datasource" := Dir;
     WORK_DIR </> "services" </> "datasource" </> ".git" := Dir;
     WORK_DIR </> "services" </> "datasource" </> "Dockerfile"
       := File mock_content ]}.



(** ** The compose generator *)

Section lines_facts.

(** Concatenation of two lists of lines, the last line of the first
    continued by the first line of the second. *)
Fixpoint glue (la lb : list string) : list string :=
  match la with
  | [] => lb
  | [l] => match lb with
           | [] => [l]
           | x :: lb' => (l +:+ x) :: lb'
           end
  | l :: la' => l :: glue la' lb
  end.

Lemma lines_nonempty s : lines s ≠ [].
Proof.
  destruct s as [|c s]; simpl; [done|].
  destruct (Ascii.eqb c nl_char); [done|]. by destruct (lines s).
Qed.

Lemma lines_app a b : lines (a +:+ b) = glue (lines a) (lines b).
Proof.
  induction a as [|c a IH].
  - change ("" +:+ b) with b. simpl.
    pose proof (lines_nonempty b). by destruct (lines b).
  - rewrite str_app_cons. simpl. rewrite IH.
    pose proof (lines_nonempty a) as Ha.
    pose proof (lines_nonempty b) as Hb.
    destruct (Ascii.eqb c nl_char).
    + by destruct (lines a).
    + destruct (lines a) as [|l [|l2 la]]; [done| |done].
      simpl. by destruct (lines b).
Qed.

Lemma contains_nl_cons c s :
  contains nl (String c s) = Ascii.eqb c nl_char || contains nl s.
Proof.
  rewrite contains_cons. f_equal.
  destruct (Ascii.eqb_spec c nl_char) as [->|Hne].
  - apply prefix_app. by exists s.
  - destruct (String.prefix nl (String c s)) eqn:E; [|done].
    apply prefix_app in E as [b Hb]. unfold nl in Hb.
    rewrite str_app_cons in Hb. by injection Hb as -> _.
Qed.

Lemma lines_newline_free s : newline_free s → lines s = [s].
Proof.
  unfold newline_free. induction s as [|c s IH]; [done|].
  rewrite contains_nl_cons. intros [Hc Hs]%orb_false_elim.
  simpl. rewrite Hc, IH by done. done.
Qed.

Lemma glue_blank lb : lb ≠ [] → glue [""] lb = lb.
Proof. by destruct lb. Qed.

End lines_facts.

Section compose_structure.

(** The text of all service blocks, in list order. *)
Definition blocks_text (names : list string) : string :=
  foldr (λ n rest, service_block n +:+ rest) "" names.

Lemma foldl_blocks (init : string) (repos : list Repo) :
  foldl (λ services_block repo,
           services_block +:+ service_block repo.(name)) init repos
  = init +:+ blocks_text (map name repos).
Proof.
  revert init. induction repos as [|r repos IH]; intros init; simpl.
  - by rewrite str_app_nil_r.
  - by rewrite IH, str_app_assoc.
Qed.

Lemma generate_dynamic_compose_eq repos :
  generate_dynamic_compose repos
  = compose_header +:+ blocks_text (map name repos) +:+ nl.
Proof. unfold generate_dynamic_compose. by rewrite foldl_blocks. Qed.

(** The lines of the fixed part. *)
Definition header_lines : list string :=
  [ "version: '3.8'" ] ++ network_block ++
  [ "volumes:"; "  postgres_data:"; "  app_logs:"; "services:" ] ++
  datastore_block.

Lemma lines_compose_header rest :
  lines (compose_header +:+ rest) = header_lines ++ lines rest.
Proof.
  rewrite lines_app.
  replace (lines compose_header) with (header_lines ++ [""])
    by (by vm_compute).
  pose proof (lines_nonempty rest). by destruct (lines rest).
Qed.

Lemma lines_service_block n rest :
  newline_free n →
  lines (service_block n +:+ rest) = "" :: build_block n ++ lines rest.
Proof.
  intros Hn. unfold service_block. rewrite !str_app_assoc, !lines_app.
  rewrite !(lines_newline_free n Hn).
  pose proof (lines_nonempty rest) as Hrest.
  destruct (lines rest) as [|x lr]; [done|].
  unfold build_block. simpl. by rewrite !str_app_nil_r.
Qed.

Lemma lines_blocks names :
  Forall newline_free names →
  lines (blocks_text names +:+ nl)
  = flat_map (λ n, "" :: build_block n) names ++ [""; ""].
Proof.
  induction 1 as [|n names Hn _ IH]; [done|].
  simpl blocks_text. rewrite str_app_assoc.
  rewrite lines_service_block by done. by rewrite IH.
Qed.

(** The descriptor, line by line. *)
Lemma lines_generate_dynamic_compose repos :
  Forall (λ r, newline_free (name r)) repos →
  lines (generate_dynamic_compose repos)
  = header_lines
    ++ flat_map (λ r, "" :: build_block (name r)) repos ++ [""; ""].
Proof.
  intros Hfree. rewrite generate_dynamic_compose_eq, lines_compose_header.
  rewrite lines_blocks by by apply Forall_fmap.
  f_equal. f_equal. clear Hfree.
  induction repos as [|r repos IH]; [done|].
  simpl. by rewrite IH.
Qed.

End compose_structure.

Section block_counting.

Lemma count_block_cons blk l ls :
  count_block blk (l :: ls)
  = (if starts_with blk (l :: ls) then 1 else 0) + count_block blk ls.
Proof. reflexivity. Qed.

Lemma count_block_absent_first b blk ls :
  Forall (λ l, l ≠ b) ls → count_block (b :: blk) ls = 0.
Proof.
  induction 1 as [|l ls Hl _ IH]; [done|].
  rewrite count_block_cons, IH. simpl.
  apply String.eqb_neq in Hl. rewrite String.eqb_sym in Hl.
  by rewrite Hl.
Qed.

Lemma count_block_absent_second b1 b2 blk ls :
  Forall (λ l, l ≠ b2) ls → count_block (b1 :: b2 :: blk) ls = 0.
Proof.
  induction 1 as [|l ls Hl Hls IH]; [done|].
  rewrite count_block_cons, IH.
  destruct ls as [|l2 ls]; simpl.
  - by rewrite andb_false_r.
  - inversion_clear Hls as [|? ? Hl2 _].
    apply String.eqb_neq in Hl2. rewrite String.eqb_sym in Hl2.
    by rewrite Hl2, andb_false_r.
Qed.

Fixpoint last_char (s : string) : option ascii :=
  match s with
  | EmptyString => None
  | String c EmptyString => Some c
  | String _ s' => last_char s'
  end.

Lemma last_char_app a c : last_char (a +:+ String c "") = Some c.
Proof.
  induction a as [|x a IH]; [done|].
  rewrite str_app_cons. simpl. rewrite IH.
  by destruct (a +:+ String c "") eqn:E; [destruct a|].
Qed.

Lemma key_line_neq n t :
  last_char t ≠ Some ":"%char → "  " +:+ n +:+ ":" ≠ t.
Proof.
  intros Ht <-. apply Ht.
  rewrite <- str_app_assoc. apply last_char_app.
Qed.

End block_counting.

Ltac str_neq :=
  first
    [ apply String.eqb_neq; vm_compute; reflexivity
    | apply app_neq_by_prefix; vm_compute; reflexivity
    | apply key_line_neq; vm_compute; discriminate ].

Section descriptor_counts.

Definition image_line : string := "    image: postgres:15-alpine".

Lemma build_lines_not_image n :
  Forall (λ l, l ≠ image_line) ("" :: build_block n).
Proof. unfold build_block. repeat constructor; str_neq. Qed.

Lemma build_lines_not_networks n :
  Forall (λ l, l ≠ "networks:") ("" :: build_block n).
Proof. unfold build_block. repeat constructor; str_neq. Qed.

Lemma blocks_lines_avoid (b : string) (repos : list Repo) :
  (∀ n, Forall (λ l, l ≠ b) ("" :: build_block n)) → "" ≠ b →
  Forall (λ l, l ≠ b)
    (flat_map (λ r, "" :: build_block (name r)) repos ++ [""; ""]).
Proof.
  intros Hb Hblank. apply Forall_app. split.
  - induction repos as [|r repos IH]; [constructor|].
    change (flat_map _ (r :: repos))
      with (("" :: build_block (name r))
              ++ flat_map (λ r, "" :: build_block (name r)) repos).
    apply Forall_app. split; [apply Hb|apply IH].
  - by repeat constructor.
Qed.

Lemma count_datastore_header rest :
  count_block datastore_block (header_lines ++ rest)
  = 1 + count_block datastore_block rest.
Proof. reflexivity. Qed.

Lemma count_network_header rest :
  count_block network_block (header_lines ++ rest)
  = 1 + count_block network_block rest.
Proof. reflexivity. Qed.

End descriptor_counts.

(** C4 (amended). The descriptor is a function of the names of the listed
    services, in order.  For every list, the empty one included, whose
    service names contain no line break, the descriptor read line by line
    is the fixed header, which holds the shared network definition and
    the datastore block, followed by one build block per listed service,
    in list order, each referencing [./services/<name>] and passing
    [SERVICE_NAME: <name>]; the datastore block and the network definition
    each occur exactly once in it. *)
Theorem descriptor_has_one_datastore_one_network (repos : list Repo) :
  Forall (λ r, newline_free (name r)) repos →
  lines (generate_dynamic_compose repos)
  = header_lines
    ++ flat_map (λ r, "" :: build_block (name r)) repos ++ [""; ""]
  ∧ count_block datastore_block (lines (generate_dynamic_compose repos)) = 1
  ∧ count_block network_block (lines (generate_dynamic_compose repos)) = 1
  ∧ (∀ repos', map name repos' = map name repos →
       generate_dynamic_compose repos' = generate_dynamic_compose repos).
Proof.
  intros Hfree. rewrite (lines_generate_dynamic_compose repos Hfree).
  split_and!.
  - reflexivity.
  - rewrite count_datastore_header. unfold datastore_block.
    rewrite count_block_absent_second; [done|].
    apply (blocks_lines_avoid image_line);
      [apply build_lines_not_image|str_neq].
  - rewrite count_network_header. unfold network_block.
    rewrite count_block_absent_first; [done|].
    apply blocks_lines_avoid; [apply build_lines_not_networks|str_neq].
  - intros repos' Hnames.
    by rewrite !generate_dynamic_compose_eq, Hnames.
Qed.

Lemma REPOS_newline_free : Forall (λ r, newline_free (name r)) REPOS.
Proof. unfold REPOS. repeat constructor. Qed.

Lemma descriptor_has_one_datastore_one_network_witness :
  count_block datastore_block (lines (generate_dynamic_compose REPOS)) = 1
  ∧ count_block datastore_block (lines (generate_dynamic_compose [])) = 1
  ∧ count_block network_block (lines (generate_dynamic_compose [])) = 1.
Proof.
  destruct (descriptor_has_one_datastore_one_network REPOS
              REPOS_newline_free) as (_ & Hds & _).
  destruct (descriptor_has_one_datastore_one_network [])
    as (_ & Hds0 & Hnet0 & _); [constructor|].
  split; [exact Hds|]. split; [exact Hds0|exact Hnet0].
Defined.

(** A service name that carries line breaks and the text of a datastore
    block. *)
Definition injected_name : string :=
  "postgres:" +:+ nl +:+
  "    image: postgres:15-alpine" +:+ nl +:+
  "    ports: [" +:+ dq +:+ "5432:5432" +:+ dq +:+ "]" +:+ nl +:+
  "    networks: [org-network]" +:+ nl +:+
  "    environment:" +:+ nl +:+
  "      POSTGRES_USER: ${POSTGRES_USER}" +:+ nl +:+
  "      POSTGRES_PASSWORD: ${POSTGRES_PASSWORD}" +:+ nl +:+
  "      POSTGRES_DB: my_org_db" +:+ nl +:+
  "    volumes: [" +:+ dq +:+ "postgres_data:/var/lib/postgresql/data"
    +:+ dq +:+ "]" +:+ nl +:+
  "  app".

Definition injected_repo : Repo :=
  {| name := injected_name; url := "https://example.org/app.git" |}.

(** C4, counterexample: for a service name with line breaks the
    descriptor holds the datastore block twice. *)
Lemma descriptor_with_injected_name_has_two_datastores :
  count_block datastore_block
    (lines (generate_dynamic_compose [injected_repo])) = 2
  ∧ count_block datastore_block
      (lines (generate_dynamic_compose [injected_repo])) ≠ 1.
Proof. split; by vm_compute. Qed.

(** * Further properties of the engine *)

(** ** The prober: containers and alerts *)

Section prober_more.

Variables (rt : runtime) (fs : filesystem) (work_dir : path).

Lemma probe_repo_containers st r :
  containers (probe_repo fs work_dir st r) = containers st.
Proof. unfold probe_repo. by repeat case_match. Qed.

Lemma foldl_probe_repo_containers rs st :
  containers (foldl (probe_repo fs work_dir) st rs) = containers st.
Proof.
  revert st. induction rs as [|r rs IH]; intros st; [done|].
  simpl. by rewrite IH, probe_repo_containers.
Qed.

(** The alerts one iteration of the repository loop appends. *)
Definition mock_alert (n : string) (vcs : bool) : string :=
  "**" +:+ n +:+ "**: Running Mock. Reason: " +:+
  (if negb vcs then "Repository clone failed or missing."
   else "Repository exists but missing valid 'Dockerfile'.").

Definition repo_alerts (n : string) : list string :=
  (if negb (has_folder fs work_dir n) then [alert_missing n] else [])
  ++ (if recipe_is_mock fs work_dir n then
        [mock_alert n (has_vcs fs work_dir n)]
      else if has_recipe fs work_dir n then []
      else [alert_corrupt n]).

Lemma probe_repo_appends st r :
  alerts (probe_repo fs work_dir st r) = alerts st ++ repo_alerts (name r).
Proof.
  unfold probe_repo, repo_alerts, recipe_is_mock, has_recipe, has_folder,
    has_vcs, folder_of, mock_alert, alert_missing, alert_corrupt.
  repeat case_match; simpl in *; try done;
    by rewrite <- ?(assoc_L (++)), ?app_nil_r.
Qed.

Lemma foldl_probe_repo_appends rs st :
  alerts (foldl (probe_repo fs work_dir) st rs)
  = alerts st ++ flat_map (λ r, repo_alerts (name r)) rs.
Proof.
  revert st. induction rs as [|r rs IH]; intros st; simpl.
  - by rewrite app_nil_r.
  - by rewrite IH, probe_repo_appends, <- (assoc_L (++)).
Qed.

Lemma get_status_alerts :
  alerts (get_status rt fs work_dir)
  = flat_map (λ r, repo_alerts (name r)) REPOS.
Proof.
  destruct (get_status_repos rt fs work_dir) as (st0 & _ & -> & Hnil).
  by rewrite foldl_probe_repo_appends, Hnil.
Qed.

Lemma repo_alerts_nil n :
  repo_alerts n = [] ↔
  has_folder fs work_dir n = true ∧ state_of fs work_dir n = Valid.
Proof.
  unfold repo_alerts, state_of, final_state.
  destruct (has_folder fs work_dir n), (recipe_is_mock fs work_dir n),
    (has_recipe fs work_dir n); simpl; split; try done;
    by intros [? ?].
Qed.

End prober_more.

(** X1. The probe raises no alert exactly when every configured service
    has its folder and is finally Valid; a folder without version-control
    metadata raises none by itself. *)
Theorem no_alert_iff_all_valid
    (rt : runtime) (fs : filesystem) (work_dir : path) :
  alerts (get_status rt fs work_dir) = [] ↔
  ∀ r, r ∈ REPOS →
    has_folder fs work_dir (name r) = true
    ∧ repos (get_status rt fs work_dir) !! name r = Some Valid.
Proof.
  rewrite get_status_alerts. split.
  - intros Hnil r Hr. rewrite get_status_state by done.
    cut (repo_alerts fs work_dir (name r) = []).
    { intros [Hf Hs]%repo_alerts_nil. by rewrite Hs. }
    revert Hnil Hr. generalize REPOS. intros rs.
    induction rs as [|r' rs IH]; intros Hnil Hr.
    + by apply elem_of_nil in Hr.
    + simpl in Hnil. apply app_eq_nil in Hnil as [H1 H2].
      apply elem_of_cons in Hr as [->|Hr]; [done|by apply IH].
  - intros Hall.
    assert (∀ r, r ∈ REPOS → repo_alerts fs work_dir (name r) = [])
      as Hnil.
    { intros r Hr. apply repo_alerts_nil.
      destruct (Hall r Hr) as [Hf Hs]. split; [done|].
      rewrite get_status_state in Hs by done. by injection Hs. }
    revert Hnil. generalize REPOS. intros rs Hnil.
    induction rs as [|r rs IH]; [done|].
    simpl. rewrite Hnil by apply list_elem_of_here. simpl.
    apply IH. intros r' Hr'. apply Hnil. by apply list_elem_of_further.
Qed.

(** X2. A service whose recipe is the mock gets an alert whose reason
    tells whether version-control metadata is present ("exists but
    missing valid Dockerfile") or not ("clone failed or missing"). *)
Theorem mock_alert_names_the_reason
    (rt : runtime) (fs : filesystem) (work_dir : path) (r : Repo) :
  r ∈ REPOS →
  recipe_is_mock fs work_dir (name r) = true →
  repos (get_status rt fs work_dir) !! name r = Some MockActive
  ∧ mock_alert (name r) (has_vcs fs work_dir (name r))
    ∈ alerts (get_status rt fs work_dir).
Proof.
  intros Hr Hm. split.
  - rewrite get_status_state by done. unfold state_of, final_state.
    by rewrite Hm.
  - rewrite get_status_alerts.
    apply list_elem_of_In, in_flat_map. exists r.
    split; [by apply list_elem_of_In|]. apply list_elem_of_In.
    unfold repo_alerts. rewrite Hm. apply elem_of_app. right.
    apply list_elem_of_here.
Qed.

(** A workspace where the datasource folder holds only the mock recipe. *)
Definition fs_mocked : filesystem :=
  {[ WORK_DIR := Dir;
     WORK_DIR </> "services" := Dir;
     WORK_DIR </> "services" </> "datasource" := Dir;
     WORK_DIR </> "services" </> "datasource" </> "Dockerfile"
       := File mock_content ]}.

Lemma mock_alert_names_the_reason_witness :
  "**datasource**: Running Mock. Reason: Repository clone failed or missing."
  ∈ alerts (get_status rt_idle fs_mocked WORK_DIR).
Proof.
  refine (proj2 (mock_alert_names_the_reason rt_idle fs_mocked WORK_DIR
                   ds_repo _ _)).
  - unfold REPOS, ds_repo. apply list_elem_of_here.
  - vm_compute. reflexivity.
Defined.

Ltac in_repos :=
  unfold REPOS;
  repeat first [apply list_elem_of_here | apply list_elem_of_further].

(** X3. Without the orchestration descriptor, or when the status query
    raises, the probe reports no container state at all, the datastore
    included. *)
Theorem no_container_states_without_listing
    (rt : runtime) (fs : filesystem) (work_dir : path) :
  FS.path_exists fs (work_dir </> "docker-compose.yml") = false
  ∨ (∃ e, compose_ps rt fs work_dir = PsRaises e) →
  containers (get_status rt fs work_dir) = ∅.
Proof.
  intros Hno. unfold get_status.
  set (st0 := match docker_version rt with
              | VersionOk => _ | _ => _ end).
  assert (containers st0 = ∅) as H0 by (subst st0; by case_match).
  destruct Hno as [->|[e ->]].
  - by rewrite foldl_probe_repo_containers.
  - destruct (FS.path_exists fs _);
      by rewrite foldl_probe_repo_containers.
Qed.

Lemma no_container_states_without_listing_witness :
  containers (get_status rt_stopped ∅ WORK_DIR) = ∅
  ∧ containers (get_status rt_idle fs_provisioned WORK_DIR) = ∅.
Proof.
  split.
  - apply no_container_states_without_listing. left. reflexivity.
  - apply no_container_states_without_listing. right.
    by exists FileNotFoundError.
Defined.

(** X4. When the listing is obtained, the probe reports a container
    state for each configured service and for "database", and for
    nothing else. *)
Theorem container_states_cover_services_and_database
    (rt : runtime) (fs : filesystem) (work_dir : path) (output : string) :
  FS.path_exists fs (work_dir </> "docker-compose.yml") = true →
  compose_ps rt fs work_dir = PsStdout output →
  ∀ k, is_Some (containers (get_status rt fs work_dir) !! k)
       ↔ k = "database" ∨ k ∈ map name REPOS.
Proof.
  intros Hc Hps k. unfold get_status. rewrite Hc, Hps.
  set (st1 := foldl (probe_repo fs work_dir) _ REPOS).
  assert (containers st1 = ∅) as H1.
  { subst st1. rewrite foldl_probe_repo_containers. by case_match. }
  assert (containers (probe_database output
                        (foldl (probe_container output) st1 REPOS)) !! k
          = if decide (k = "database")
            then containers (probe_database output
                   (foldl (probe_container output) st1 REPOS)) !! k
            else containers (foldl (probe_container output) st1 REPOS)
                 !! k) as ->.
  { case_decide; [done|]. unfold probe_database.
    case_match; simpl; by rewrite lookup_insert_ne. }
  case_decide as Hk.
  - subst k. split; [by left|]. intros _. unfold probe_database.
    case_match; simpl; rewrite lookup_insert_eq; eauto.
  - destruct (decide (k ∈ map name REPOS)) as [Hin|Hout].
    + rewrite (foldl_probe_container_state output REPOS st1 k Hin).
      split; [by right|eauto].
    + rewrite (foldl_probe_container_other output REPOS st1 k Hout), H1.
      rewrite lookup_empty. split; [by intros []|]. by intros [?|?].
Qed.

Lemma container_states_cover_services_and_database_witness :
  is_Some (containers (get_status rt_stopped fs_provisioned WORK_DIR)
           !! "ingestor")
  ∧ ¬ is_Some (containers (get_status rt_stopped fs_provisioned WORK_DIR)
               !! "postgres").
Proof.
  pose proof (container_states_cover_services_and_database rt_stopped
                fs_provisioned WORK_DIR listing_stopped eq_refl eq_refl)
    as Hdom.
  split.
  - apply Hdom. right. apply (bool_decide_unpack _). vm_compute. exact I.
  - intros [Hk|Hk]%Hdom; [discriminate|].
    apply (bool_decide_pack _) in Hk. vm_compute in Hk. exact Hk.
Defined.

(** X5. The 'Up' marker is looked for in the whole listing, not on the
    line of a service: in one probe, any two configured services named
    in the listing get the same state, and when the datastore is Running
    so is every service named in the listing. *)
Theorem named_services_share_one_state
    (rt : runtime) (fs : filesystem) (work_dir : path) (output : string) :
  FS.path_exists fs (work_dir </> "docker-compose.yml") = true →
  compose_ps rt fs work_dir = PsStdout output →
  (∀ r1 r2, r1 ∈ REPOS → r2 ∈ REPOS →
     contains (name r1) output = true →
     contains (name r2) output = true →
     containers (get_status rt fs work_dir) !! name r1
     = containers (get_status rt fs work_dir) !! name r2)
  ∧ (containers (get_status rt fs work_dir) !! "database" = Some Running →
     ∀ r, r ∈ REPOS → contains (name r) output = true →
       containers (get_status rt fs work_dir) !! name r = Some Running).
Proof.
  intros Hc Hps.
  destruct (get_status_containers rt fs work_dir output Hc Hps) as [st ->].
  assert (∀ r, r ∈ REPOS →
            containers (probe_database output
                          (foldl (probe_container output) st REPOS))
              !! name r
            = Some (three_way (contains (name r) output)
                              (contains "Up" output))) as Hsvc.
  { intros r Hr.
    assert (name r ≠ "database") as Hne.
    { intros Heq. unfold REPOS in Hr.
      repeat (apply elem_of_cons in Hr as [->|Hr]; [by inversion Heq|]).
      by apply elem_of_nil in Hr. }
    unfold probe_database, set_container.
    case_match; cbn [containers]; rewrite lookup_insert_ne by done;
      apply foldl_probe_container_state, list_elem_of_fmap; eauto. }
  split.
  - intros r1 r2 Hr1 Hr2 H1 H2. by rewrite !Hsvc, H1, H2.
  - intros Hdb r Hr Hn. rewrite Hsvc, Hn by done.
    unfold probe_database, set_container in Hdb.
    destruct (contains "postgres" output && contains "Up" output) eqn:E;
      cbn [containers] in Hdb; rewrite lookup_insert_eq in Hdb; [|done].
    apply andb_prop in E as [_ ->]. done.
Qed.

(** A listing where one service is up and another has exited. *)
Definition listing_mixed : string :=
  "NAME              IMAGE                STATUS" +:+ nl +:+
  "prod-ingestor-1   prod-ingestor        Up 2 hours" +:+ nl +:+
  "prod-ui-1         prod-ui              Exited (1) 2 hours ago" +:+ nl.

Definition rt_mixed : runtime :=
  {| docker_version := VersionOk;
     compose_ps := λ _ _, PsStdout listing_mixed |}.

Lemma named_services_share_one_state_witness :
  containers (get_status rt_mixed fs_provisioned WORK_DIR) !! "ui"
  = containers (get_status rt_mixed fs_provisioned WORK_DIR) !! "ingestor".
Proof.
  destruct (named_services_share_one_state rt_mixed fs_provisioned
              WORK_DIR listing_mixed eq_refl eq_refl) as [Hsame _].
  apply (Hsame
           {| name := "ui";
              url := "https://github.com/ibm-live-project-interns/ui.git" |}
           {| name := "ingestor";
              url := "https://github.com/ibm-live-project-interns/ingestor.git" |}).
  - in_repos.
  - in_repos.
  - vm_compute. reflexivity.
  - vm_compute. reflexivity.
Defined.

(** ** The process runner: what the sink receives *)

Definition concat_str (parts : list string) : string :=
  foldr String.append "" parts.

Lemma stream_lines_cumulative (full_log : string) (out : list string) :
  stream_lines full_log out
  = imap (λ i _, SinkCode (full_log +:+ concat_str (take (S i) out))) out.
Proof.
  revert full_log. induction out as [|line out IH]; intros full_log.
  - done.
  - simpl stream_lines. rewrite imap_cons. f_equal.
    + simpl. by rewrite str_app_nil_r.
    + rewrite IH. apply imap_ext. intros i x _. simpl.
      by rewrite str_app_assoc.
Qed.

(** X6. The sink is sent the transcript so far, not the new line: for a
    process that prints lines and exits, the events added to the sink
    are, for each line in turn, the concatenation of all lines up to and
    including it. *)
Theorem sink_receives_cumulative_transcript
    (h : host) (cmd : string) (cwd : path) (w : world)
    (out : list string) (code : Z) (fs' : filesystem) :
  FS.path_exists (w_fs w) cwd = true →
  popen h cmd cwd (w_fs w) = Exited out code fs' →
  ∃ w', stream_command h cmd cwd w = Ok (bool_decide (code = 0%Z)) w'
        ∧ w_sink w'
          = w_sink w
            ++ imap (λ i _, SinkCode (concat_str (take (S i) out))) out
        ∧ w_fs w' = fs'.
Proof.
  intros Hc Hp. rewrite (stream_command_exited h cmd cwd w out code fs' Hc Hp).
  eexists. split; [reflexivity|].
  destruct (foldl_push_sink (with_fs (push_popen w (cmd, cwd)) fs')
              (stream_lines "" out)) as (-> & _ & -> & _).
  split; [|done]. simpl. f_equal. apply stream_lines_cumulative.
Qed.

Definition host_two_lines : host :=
  {| cwd_str := "/home/dev/infra";
     clock := λ _, "12:00:00";
     popen := λ _ _ fs,
       Exited ["Already up to date." +:+ nl; "done" +:+ nl] 0 fs;
     remove_error := λ _ _, None |}.

Lemma sink_receives_cumulative_transcript_witness :
  ∃ w', stream_command host_two_lines "git pull" BASE_DIR (initial_world ∅)
        = Ok true w'
        ∧ w_sink w'
          = [ SinkCode ("Already up to date." +:+ nl);
              SinkCode ("Already up to date." +:+ nl +:+ "done" +:+ nl) ].
Proof.
  destruct (sink_receives_cumulative_transcript host_two_lines "git pull"
              BASE_DIR (initial_world ∅)
              ["Already up to date." +:+ nl; "done" +:+ nl] 0 ∅
              eq_refl eq_refl) as (w' & Hrun & Hsink & _).
  exists w'. split; [exact Hrun|exact Hsink].
Defined.

(** ** Stop *)

(** [stop_services].  The text given to [st.warning], for which the
    dashboard events have no constructor, is the result. *)
Definition stop_services (h : host) : M (option string) :=
  descriptor_exists ← query (λ fs, FS.path_exists fs compose_file);
  if (descriptor_exists : bool) then
    emit_sink (SinkCode "Stopping...");;
    stream_command h "docker compose down" WORK_DIR;;
    emit_ui (UiSuccess "Services Stopped.");;
    emit_ui (UiLastUpdated (clock h 0));;
    emit_ui (UiSleep 1);;
    emit_ui UiRerun;;
    return_ None
  else return_ (Some "Environment not found.").

(** X7. Stop never raises.  Without the descriptor it only warns
    "Environment not found." and leaves the world as it is.  With the
    descriptor, in a well-formed workspace, it spawns the teardown command
    once in the workspace root and then reports "Services Stopped." and
    reruns the page whatever the command returned: a failed teardown is
    reported as success. *)
Theorem stop_services_contract (h : host) (w : world) :
  (FS.path_exists (w_fs w) compose_file = false →
     stop_services h w = Ok (Some "Environment not found.") w)
  ∧ (FS.wf (w_fs w) → FS.path_exists (w_fs w) compose_file = true →
     ∃ w', stop_services h w = Ok None w'
           ∧ w_popen w' = w_popen w ++ [("docker compose down", WORK_DIR)]
           ∧ w_ui w'
             = w_ui w ++ [ UiSuccess "Services Stopped.";
                           UiLastUpdated (clock h 0); UiSleep 1; UiRerun ]
           ∧ w_logs w' = w_logs w).
Proof.
  split.
  - intros Hc. unfold stop_services. rewrite bind_query. by rewrite Hc.
  - intros Hwf Hc. unfold stop_services. rewrite bind_query, Hc.
    assert (FS.path_exists (w_fs w) WORK_DIR = true) as Hroot.
    { destruct (FS.path_exists (w_fs w) WORK_DIR) eqn:E; [done|].
      unfold compose_file in Hc.
      by rewrite (wf_child_missing (w_fs w) WORK_DIR _ Hwf E) in Hc. }
    rewrite (bind_Ok_eq _ _ w tt (push_sink w (SinkCode "Stopping...")))
      by done.
    set (w0 := push_sink w (SinkCode "Stopping...")).
    destruct (popen h "docker compose down" WORK_DIR (w_fs w0))
      as [out code fs'|out e fs'] eqn:Hp.
    + rewrite (bind_Ok_eq _ _ _ _ _
                 (stream_command_exited h _ _ w0 out code fs' Hroot Hp)).
      eexists. split; [reflexivity|]. simpl.
      destruct (foldl_push_sink (with_fs (push_popen w0 ("docker compose down", WORK_DIR)) fs')
                  (stream_lines "" out)) as (_ & -> & _ & -> & ->).
      simpl. by rewrite <- !(assoc_L (++)).
    + rewrite (bind_Ok_eq _ _ _ _ _
                 (stream_command_failed h _ _ w0 out e fs' Hroot Hp)).
      eexists. split; [reflexivity|]. simpl.
      destruct (foldl_push_sink (with_fs (push_popen w0 ("docker compose down", WORK_DIR)) fs')
                  (stream_lines "" out)) as (_ & -> & _ & -> & ->).
      simpl. by rewrite <- !(assoc_L (++)).
Qed.

(** ** The dashboard colour of a service *)

(** The colour [main] picks for a state label (line 203). *)
Definition status_color (state : string) : string :=
  if contains "Valid" state then "green"
  else if contains "Mock" state then "orange"
  else "red".

(** X8. For every configured service, the dashboard shows the reported
    state in green exactly when the service has a recipe that is not the
    mock, in orange exactly when its recipe is the mock, and in red
    exactly when it has no recipe. *)
Theorem dashboard_colour_follows_recipe
    (rt : runtime) (fs : filesystem) (work_dir : path) (r : Repo) :
  r ∈ REPOS →
  ∃ s, repos (get_status rt fs work_dir) !! name r = Some s
       ∧ (status_color (service_label s) = "green" ↔
          recipe_is_mock fs work_dir (name r) = false
          ∧ has_recipe fs work_dir (name r) = true)
       ∧ (status_color (service_label s) = "orange" ↔
          recipe_is_mock fs work_dir (name r) = true)
       ∧ (status_color (service_label s) = "red" ↔
          recipe_is_mock fs work_dir (name r) = false
          ∧ has_recipe fs work_dir (name r) = false).
Proof.
  intros Hr. exists (state_of fs work_dir (name r)).
  split; [by apply get_status_state|].
  unfold state_of, final_state.
  destruct (recipe_is_mock fs work_dir (name r)),
    (has_recipe fs work_dir (name r));
    vm_compute; repeat split; intros; destruct_and?; congruence.
Qed.

Lemma dashboard_colour_follows_recipe_witness :
  ∃ s, repos (get_status rt_idle fs_mocked WORK_DIR) !! "datasource"
       = Some s
       ∧ status_color (service_label s) = "orange".
Proof.
  destruct (dashboard_colour_follows_recipe rt_idle fs_mocked WORK_DIR
              ds_repo) as (s & Hs & _ & Horange & _); [in_repos|].
  exists s. split; [exact Hs|]. apply Horange. vm_compute. reflexivity.
Defined.

Definition fs_running : filesystem :=
  {[ WORK_DIR := Dir; compose_file := File "services: {}" ]}.

Lemma wf_fs_running : FS.wf fs_running.
Proof.
  unfold fs_running. apply map_Forall_insert_2; [reflexivity|].
  apply map_Forall_insert_2; [reflexivity|]. apply map_Forall_empty.
Qed.

Lemma stop_services_contract_witness :
  stop_services host_failing (initial_world ∅)
  = Ok (Some "Environment not found.") (initial_world ∅)
  ∧ (∃ w', stop_services host_failing (initial_world fs_running)
           = Ok None w'
           ∧ w_popen w' = [("docker compose down", WORK_DIR)]).
Proof.
  split.
  - apply (stop_services_contract host_failing (initial_world ∅)).
    reflexivity.
  - destruct (stop_services_contract host_failing
                (initial_world fs_running)) as [_ Hstop].
    destruct Hstop as (w' & Hrun & Hpopen & _);
      [exact wf_fs_running|reflexivity|].
    exists w'. split; [exact Hrun|exact Hpopen].
Defined.

(** ** The steps of a run on their own *)

(** X9. Step 2 never raises.  It goes on exactly when the workspace root
    is a directory and the descriptor path is not one, and then the
    descriptor file holds the text generated from the configured list
    whatever it held before, every other entry being as it was; otherwise
    the filesystem is unchanged. *)
Theorem step2_overwrites_descriptor (w : world) :
  ∃ c w',
    step2_compose w = Ok c w'
    ∧ (c = true ↔ FS.is_dir (w_fs w) WORK_DIR = true
                  ∧ w_fs w !! compose_file ≠ Some Dir)
    ∧ w_fs w'
      = (if c
         then <[compose_file := File (generate_dynamic_compose REPOS)]>
                (w_fs w)
         else w_fs w).
Proof.
  unfold step2_compose. rewrite bind_log.
  unfold try_except, mbind, M_bind, update_fs, FS.write_text, FS.is_dir,
    compose_file, sub, log.
  cbn [final_world w_fs with_logs push_sink push_ui with_fs].
  destruct (FS.node_at (w_fs w) WORK_DIR) as [[]|];
    try (do 2 eexists; split; [reflexivity|];
         split; [split; [done|by intros [? ?]]|done]).
  destruct (w_fs w !! _) as [[]|] eqn:E;
    do 2 eexists; (split; [reflexivity|]);
    (split; [split; [done|by intros [? ?]]|done]).
Qed.

(** X10. When the workspace root is a directory, [_failsafe] is not a
    file and the mock path is not a directory, step 3 leaves a mock
    artifact whose content is the fixed placeholder recipe, detected as
    mock, whatever was there before. *)
Theorem step3_regenerates_mock (w : world) :
  FS.is_dir (w_fs w) WORK_DIR = true →
  FS.path_exists (w_fs w) (WORK_DIR </> "_failsafe") = false
  ∨ FS.is_dir (w_fs w) (WORK_DIR </> "_failsafe") = true →
  w_fs w !! mock_file ≠ Some Dir →
  ∃ w', step3_mock w = Ok tt w'
        ∧ w_fs w' !! mock_file = Some (File mock_content)
        ∧ FS.is_dir (w_fs w') (WORK_DIR </> "_failsafe") = true
        ∧ is_mock_file (w_fs w') mock_file = true.
Proof.
  intros Hroot Hfs Hmock.
  assert (∃ fs1, FS.mkdir_parents (w_fs w) (WORK_DIR </> "_failsafe")
                 = inr fs1
                 ∧ fs1 !! (WORK_DIR </> "_failsafe") = Some Dir
                 ∧ fs1 !! mock_file = w_fs w !! mock_file)
    as (fs1 & Hmk & Hdir & Hsame).
  { unfold FS.path_exists, FS.is_dir, FS.node_at, mock_file, WORK_DIR,
      BASE_DIR, PROJECT_NAME, sub in *. cbn [FS.mkdir_parents].
    destruct (w_fs w !! ["_failsafe"; "prod"]) as [[]|] eqn:E.
    - by exists (w_fs w).
    - by destruct Hfs.
    - by destruct Hfs.
    - destruct (w_fs w !! ["prod"]) as [[]|] eqn:E2; try done.
      eexists. split; [reflexivity|].
      by rewrite lookup_insert_eq, lookup_insert_ne. }
  unfold step3_mock.
  rewrite (bind_Ok_eq _ _ w tt (with_fs w fs1))
    by (unfold update_fs; by rewrite Hmk).
  unfold update_fs, FS.write_text, mock_file, FS.is_dir, FS.node_at, sub
    in *.
  cbn [w_fs with_fs].
  assert (is_mock_file
            (<["Dockerfile.mock" :: "_failsafe" :: WORK_DIR
               := File mock_content]> fs1)
            ("Dockerfile.mock" :: "_failsafe" :: WORK_DIR) = true) as Him.
  { unfold is_mock_file, is_mock_file_try, FS.path_exists, FS.read_text,
      FS.node_at. by rewrite lookup_insert_eq. }
  rewrite Hdir.
  destruct (fs1 !! ("Dockerfile.mock" :: "_failsafe" :: WORK_DIR))
    as [[]|] eqn:E; [congruence|..];
    (eexists; split; [reflexivity|]); cbn [w_fs with_fs];
    rewrite lookup_insert_eq, lookup_insert_ne, Hdir by done; done.
Qed.

Lemma step3_regenerates_mock_witness :
  ∃ w', step3_mock (initial_world fs_bare_root) = Ok tt w'
        ∧ w_fs w' !! mock_file = Some (File mock_content).
Proof.
  destruct (step3_regenerates_mock (initial_world fs_bare_root))
    as (w' & Hrun & Hmock & _).
  - reflexivity.
  - left. reflexivity.
  - discriminate.
  - exists w'. split; [exact Hrun|exact Hmock].
Defined.

Lemma final_validation_recipe_exists (r : Repo) (w w' : world) :
  final_validation r w = Ok tt w' →
  FS.path_exists (w_fs w') (dockerfile_of r) = true.
Proof.
  unfold final_validation. rewrite bind_query. fold (dockerfile_of r).
  intros Hrun.
  destruct (FS.path_exists (w_fs w) (dockerfile_of r)) eqn:He;
    cbn [negb] in Hrun.
  - rewrite bind_query in Hrun.
    destruct (is_mock_file _ _); unfold log in Hrun;
      by injection Hrun as <-.
  - rewrite bind_log in Hrun.
    apply update_fs_Ok in Hrun as (fs' & Hcopy & ->).
    simpl in Hcopy. unfold FS.copy in Hcopy.
    unfold FS.path_exists, FS.node_at, dockerfile_of, sub in He.
    unfold dockerfile_of, sub in *.
    destruct (w_fs w !! ("Dockerfile" :: name r :: "services" :: WORK_DIR))
      eqn:E; [done|].
    repeat case_match; simplify_eq; simpl;
      unfold FS.path_exists, FS.node_at; by rewrite lookup_insert_eq.
Qed.

(** X11. Whatever git did, a service that has been handled without an
    exception has a recipe; and the final validation of a service that
    already has a recipe, real or mock, changes no file. *)
Theorem handled_service_has_recipe (h : host) (r : Repo) (w w' : world) :
  (manage_repo h r w = Ok tt w' →
     FS.path_exists (w_fs w') (dockerfile_of r) = true)
  ∧ (FS.path_exists (w_fs w) (dockerfile_of r) = true →
     ∃ w1, final_validation r w = Ok tt w1 ∧ w_fs w1 = w_fs w
           ∧ w_popen w1 = w_popen w).
Proof.
  split.
  - unfold manage_repo. intros Hrun.
    apply bind_Ok in Hrun as (b & w0 & _ & Hrun).
    apply bind_Ok in Hrun as ([] & w1 & _ & Hrun).
    apply bind_Ok in Hrun as ([] & w2 & _ & Hrun).
    by eapply final_validation_recipe_exists.
  - intros He. unfold final_validation. rewrite bind_query.
    fold (dockerfile_of r). rewrite He. cbn [negb]. rewrite bind_query.
    destruct (is_mock_file _ _); unfold log; by eexists.
Qed.

Lemma handled_service_has_recipe_witness :
  FS.path_exists
    (w_fs (final_world (manage_repo host_failing ds_repo
                          (initial_world fs_mocked))))
    (dockerfile_of ds_repo) = true.
Proof.
  apply (handled_service_has_recipe host_failing ds_repo
           (initial_world fs_mocked)).
  apply returns_normally_Ok. vm_compute. reflexivity.
Defined.

(** X12. With the mock artifact in place, the final validation of a
    service whose folder has no recipe copies the artifact into the
    folder, and the prober then classifies the service as MockActive. *)
Theorem missing_recipe_replaced_by_mock (r : Repo) (w : world) :
  w_fs w !! mock_file = Some (File mock_content) →
  FS.is_dir (w_fs w) (WORK_DIR </> "services" </> name r) = true →
  FS.path_exists (w_fs w) (dockerfile_of r) = false →
  ∃ w', final_validation r w = Ok tt w'
        ∧ w_fs w' = <[dockerfile_of r := File mock_content]> (w_fs w)
        ∧ state_of (w_fs w') WORK_DIR (name r) = MockActive
        ∧ last (w_logs w') = Some (msg_inject (name r)).
Proof.
  intros Hmock Hdir He. unfold final_validation. rewrite bind_query.
  fold (dockerfile_of r). rewrite He. cbn [negb]. rewrite bind_log.
  unfold update_fs, log, FS.copy, FS.is_dir, FS.path_exists, FS.node_at,
    dockerfile_of, mock_file, sub in *.
  cbn [final_world w_fs with_logs push_sink push_ui with_fs w_logs].
  rewrite Hmock.
  destruct (w_fs w !! (name r :: "services" :: WORK_DIR)) as [[]|];
    try done.
  destruct (w_fs w !! ("Dockerfile" :: name r :: "services" :: WORK_DIR))
    eqn:E; [done|].
  eexists. split; [reflexivity|]. split; [done|]. split.
  - unfold state_of, final_state, recipe_is_mock, is_mock_file,
      is_mock_file_try, FS.path_exists, FS.read_text, FS.node_at,
      folder_of, sub.
    cbn [w_fs with_fs]. by rewrite lookup_insert_eq.
  - simpl. by rewrite last_snoc.
Qed.

Definition fs_empty_service : filesystem :=
  {[ WORK_DIR := Dir;
     WORK_DIR </> "_failsafe" := Dir;
     mock_file := File mock_content;
     WORK_DIR </> "services" := Dir;
     WORK_DIR </> "services" </> "datasource" := Dir ]}.

Lemma missing_recipe_replaced_by_mock_witness :
  ∃ w', final_validation ds_repo (initial_world fs_empty_service)
        = Ok tt w'
        ∧ state_of (w_fs w') WORK_DIR "datasource" = MockActive.
Proof.
  destruct (missing_recipe_replaced_by_mock ds_repo
              (initial_world fs_empty_service))
    as (w' & Hrun & _ & Hstate & _); [reflexivity..|].
  exists w'. split; [exact Hrun|exact Hstate].
Defined.

(** ** Clone, or update *)

Lemma is_mock_file_File_inv fs p :
  is_mock_file fs p = true → ∃ c, FS.node_at fs p = Some (File c).
Proof.
  unfold is_mock_file, is_mock_file_try, FS.path_exists, FS.read_text.
  destruct (FS.node_at fs p) as [[]|]; simpl; try done. eauto.
Qed.

Definition folder (r : Repo) : path := WORK_DIR </> "services" </> name r.

Definition clone_cmd (h : host) (r : Repo) : string :=
  "git clone " +:+ url r +:+ " " +:+ dq +:+ str_path h (folder r) +:+ dq.

Definition skip_msg (r : Repo) : string :=
  "⚠️ Folder " +:+ name r
  +:+ " exists but is not a git repo. Skipping clone.".

(** X13. For a service folder without version-control metadata: when
    the folder has any entry, no process is spawned and no file changes,
    the skipped clone is only logged; when the folder is empty, the clone
    of the service's URL into the folder is spawned once, in the
    workspace root. *)
Theorem clone_only_into_empty_folder (h : host) (r : Repo) (w : world) :
  FS.path_exists (w_fs w) (folder r </> ".git") = false →
  (FS.has_entries (w_fs w) (folder r) = inr true →
     ∃ w', clone_or_update h r w = Ok tt w'
           ∧ w_popen w' = w_popen w
           ∧ w_fs w' = w_fs w
           ∧ last (w_logs w') = Some (skip_msg r))
  ∧ (FS.has_entries (w_fs w) (folder r) = inr false →
     FS.path_exists (w_fs w) WORK_DIR = true →
     ∃ w', clone_or_update h r w = Ok tt w'
           ∧ w_popen w' = w_popen w ++ [(clone_cmd h r, WORK_DIR)]
           ∧ w_fs w'
             = outcome_fs (popen h (clone_cmd h r) WORK_DIR (w_fs w))).
Proof.
  intros Hgit. unfold clone_or_update. fold (folder r).
  rewrite bind_query, Hgit. cbn [negb]. rewrite bind_log.
  set (w0 := final_world (log _ w)).
  assert (w_fs w0 = w_fs w) as Hfs0 by done.
  split.
  - intros Hne.
    rewrite (bind_Ok_eq _ _ w0 true w0)
      by (unfold query_raising; by rewrite Hfs0, Hne).
    rewrite bind_query, Hfs0, Hgit. cbn [andb negb].
    eexists. split; [reflexivity|]. subst w0. simpl.
    by rewrite last_snoc.
  - intros Hempty Hroot.
    rewrite (bind_Ok_eq _ _ w0 false w0)
      by (unfold query_raising; by rewrite Hfs0, Hempty).
    rewrite bind_query. cbn [andb]. fold (clone_cmd h r).
    destruct (popen h (clone_cmd h r) WORK_DIR (w_fs w))
      as [out code fs'|out e fs'] eqn:Hp.
    + rewrite (bind_Ok_eq _ _ _ _ _
                 (stream_command_exited h _ _ w0 out code fs' Hroot Hp)).
      eexists. split; [reflexivity|].
      by destruct (foldl_push_sink
                     (with_fs (push_popen w0 (clone_cmd h r, WORK_DIR)) fs')
                     (stream_lines "" out)) as (-> & _ & _ & _ & ->).
    + rewrite (bind_Ok_eq _ _ _ _ _
                 (stream_command_failed h _ _ w0 out e fs' Hroot Hp)).
      eexists. split; [reflexivity|]. simpl.
      by destruct (foldl_push_sink
                     (with_fs (push_popen w0 (clone_cmd h r, WORK_DIR)) fs')
                     (stream_lines "" out)) as (-> & _ & _ & _ & ->).
Qed.

(** A service folder that holds a file but no [.git]. *)
Definition fs_local_code : filesystem :=
  {[ WORK_DIR := Dir;
     WORK_DIR </> "services" := Dir;
     WORK_DIR </> "services" </> "datasource" := Dir;
     WORK_DIR </> "services" </> "datasource" </> "notes.txt"
       := File "todo" ]}.

Lemma clone_only_into_empty_folder_witness :
  (∃ w', clone_or_update host_failing ds_repo (initial_world fs_local_code)
         = Ok tt w' ∧ w_popen w' = [])
  ∧ (∃ w', clone_or_update host_failing ds_repo
             (initial_world fs_empty_service) = Ok tt w'
           ∧ w_popen w' = [(clone_cmd host_failing ds_repo, WORK_DIR)]).
Proof.
  split.
  - destruct (clone_only_into_empty_folder host_failing ds_repo
                (initial_world fs_local_code)) as [Hskip _];
      [reflexivity|].
    destruct Hskip as (w' & Hrun & Hpopen & _);
      [vm_compute; reflexivity|].
    exists w'. split; [exact Hrun|exact Hpopen].
  - destruct (clone_only_into_empty_folder host_failing ds_repo
                (initial_world fs_empty_service)) as [_ Hclone];
      [reflexivity|].
    destruct Hclone as (w' & Hrun & Hpopen & _);
      [vm_compute; reflexivity|reflexivity|].
    exists w'. split; [exact Hrun|exact Hpopen].
Defined.

(** X14. For a service under version control whose recipe is the mock,
    the deletion of the mock is attempted before the update and its
    failure is swallowed: whatever the deletion does, [git pull] is
    spawned once, in the service folder.  The pull runs on a filesystem
    without the recipe when the operating system lets the deletion
    through, and on the unchanged filesystem when it refuses it.  A recipe
    that is not the mock is left in place for the pull. *)
Theorem mock_removed_before_pull (h : host) (r : Repo) (w : world) :
  FS.path_exists (w_fs w) (folder r </> ".git") = true →
  FS.path_exists (w_fs w) (folder r) = true →
  ∃ w', clone_or_update h r w = Ok tt w'
        ∧ w_popen w' = w_popen w ++ [("git pull", folder r)]
        ∧ w_fs w'
          = outcome_fs
              (popen h "git pull" (folder r)
                 (if is_mock_file (w_fs w) (dockerfile_of r)
                  then match remove_error h (dockerfile_of r) (w_fs w) with
                       | None => delete (dockerfile_of r) (w_fs w)
                       | Some _ => w_fs w
                       end
                  else w_fs w)).
Proof.
  intros Hgit Hfolder. unfold clone_or_update. fold (folder r).
  rewrite bind_query, Hgit. cbn [negb]. rewrite bind_query.
  change (folder r </> "Dockerfile") with (dockerfile_of r).
  set (fs1 := if is_mock_file (w_fs w) (dockerfile_of r)
              then match remove_error h (dockerfile_of r) (w_fs w) with
                   | None => delete (dockerfile_of r) (w_fs w)
                   | Some _ => w_fs w
                   end
              else w_fs w).
  match goal with
  | |- ∃ w', (?m ≫= _) w = _ ∧ _ =>
      assert (∃ wa, m w = Ok tt wa ∧ w_fs wa = fs1
                    ∧ w_popen wa = w_popen w) as (wa & Ha & Hfa & Hpa)
  end.
  { subst fs1. destruct (is_mock_file (w_fs w) (dockerfile_of r)) eqn:Hm.
    - rewrite bind_log. unfold try_except, update_fs, os_remove, FS.remove.
      apply is_mock_file_File_inv in Hm as (c & Hc).
      cbn [final_world log w_fs with_logs push_sink push_ui].
      destruct (remove_error h (dockerfile_of r) (w_fs w)).
      + eexists. split; [reflexivity|]. done.
      + rewrite Hc. eexists. split; [reflexivity|]. done.
    - by eexists. }
  rewrite (bind_Ok_eq _ _ _ _ _ Ha), bind_log.
  set (w0 := final_world (log _ wa)).
  assert (w_fs w0 = fs1) as Hfs0 by done.
  assert (w_popen w0 = w_popen w) as Hp0 by done.
  assert (FS.path_exists (w_fs w0) (folder r) = true) as Hcwd.
  { rewrite Hfs0. subst fs1. destruct (is_mock_file _ _); [|done].
    destruct (remove_error h _ _); [done|].
    unfold FS.path_exists, FS.node_at, folder, dockerfile_of, sub in *.
    by rewrite lookup_delete_ne. }
  destruct (popen h "git pull" (folder r) (w_fs w0))
    as [out code fs'|out e fs'] eqn:Hp.
  - rewrite (bind_Ok_eq _ _ _ _ _
               (stream_command_exited h _ _ w0 out code fs' Hcwd Hp)).
    eexists. split; [reflexivity|]. rewrite <- Hfs0, Hp.
    destruct (foldl_push_sink
                (with_fs (push_popen w0 ("git pull", folder r)) fs')
                (stream_lines "" out)) as (-> & _ & _ & _ & ->).
    simpl. by rewrite Hpa.
  - rewrite (bind_Ok_eq _ _ _ _ _
               (stream_command_failed h _ _ w0 out e fs' Hcwd Hp)).
    eexists. split; [reflexivity|]. rewrite <- Hfs0, Hp. simpl.
    destruct (foldl_push_sink
                (with_fs (push_popen w0 ("git pull", folder r)) fs')
                (stream_lines "" out)) as (-> & _ & _ & _ & ->).
    simpl. by rewrite Hpa.
Qed.

Lemma mock_removed_before_pull_witness :
  (∃ w', clone_or_update host_failing ds_repo
           (initial_world fs_mock_under_git) = Ok tt w'
         ∧ w_popen w' = [("git pull", folder ds_repo)]
         ∧ FS.path_exists (w_fs w') (dockerfile_of ds_repo) = false)
  ∧ (∃ w', clone_or_update host_read_only ds_repo
             (initial_world fs_mock_under_git) = Ok tt w'
           ∧ w_popen w' = [("git pull", folder ds_repo)]
           ∧ w_fs w' !! dockerfile_of ds_repo = Some (File mock_content)).
Proof.
  split.
  - destruct (mock_removed_before_pull host_failing ds_repo
                (initial_world fs_mock_under_git))
      as (w' & Hrun & Hpopen & Hfs); [reflexivity..|].
    exists w'. split; [exact Hrun|]. split; [exact Hpopen|].
    rewrite Hfs. vm_compute. reflexivity.
  - destruct (mock_removed_before_pull host_read_only ds_repo
                (initial_world fs_mock_under_git))
      as (w' & Hrun & Hpopen & Hfs); [reflexivity..|].
    exists w'. split; [exact Hrun|]. split; [exact Hpopen|].
    rewrite Hfs. vm_compute. reflexivity.
Defined.

(** ** What a run logs and spawns *)

Section logs_of_first_steps.

Variable h : host.

Lemma ensures_logs_step1 : ensures logs_grow (step1_directories h).
Proof. unfold step1_directories. ensures_logs. Qed.

Lemma ensures_logs_step2 : ensures logs_grow step2_compose.
Proof. unfold step2_compose. ensures_logs. Qed.

Lemma ensures_logs_step3 : ensures logs_grow step3_mock.
Proof. unfold step3_mock. ensures_logs. Qed.

End logs_of_first_steps.

(** X15. Every run starts its log afresh: however the run ends, and
    whatever had been logged before, the log it leaves begins with the
    start line of this run. *)
Theorem run_log_starts_with_start_line (h : host) (w : world) :
  ∃ rest,
    w_logs (final_world (run_bootstrap h w)) = start_msg h :: rest.
Proof.
  unfold run_bootstrap. fold (start_msg h).
  match goal with
  | |- ∃ rest, w_logs (final_world (?m ?w1)) = _ =>
      assert (ensures logs_grow m) as Hm; [|destruct (Hm w1) as [k Hk]]
  end.
  - ensures_with ltac:(idtac; lazymatch goal with
      | |- ensures _ (step1_directories _) => apply ensures_logs_step1
      | |- ensures _ step2_compose => apply ensures_logs_step2
      | |- ensures _ step3_mock => apply ensures_logs_step3
      | |- ensures _ (manage_repo _ _) => apply ensures_logs_manage_repo
      | |- ensures _ step5_env => apply ensures_logs_step5
      | |- ensures _ (step6_launch _) => apply ensures_logs_step6
      end).
  - exists k. by rewrite Hk.
Qed.

(** The commands a run may spawn, each with its working directory. *)
Definition allowed_spawn (h : host) (c : string * path) : Prop :=
  c = (launch_cmd, WORK_DIR)
  ∨ ∃ r, r ∈ REPOS
         ∧ (c = (clone_cmd h r, WORK_DIR) ∨ c = ("git pull", folder r)).

Definition spawns_only (P : string * path → Prop) (w w' : world) : Prop :=
  ∃ k, w_popen w' = w_popen w ++ k ∧ Forall P k.

Global Instance spawns_only_preorder P : PreOrder (spawns_only P).
Proof.
  split.
  - intros w. exists []. by rewrite app_nil_r.
  - intros w1 w2 w3 (k1 & E1 & H1) (k2 & E2 & H2). exists (k1 ++ k2).
    split; [by rewrite E2, E1, (assoc_L (++))|by apply Forall_app].
Qed.

Section spawns.

Variable P : string * path → Prop.

Lemma spawns_nothing w w' : w_popen w' = w_popen w → spawns_only P w w'.
Proof. intros E. exists []. by rewrite app_nil_r. Qed.

Lemma ensures_spawns_log msg : ensures (spawns_only P) (log msg).
Proof. intros w. by apply spawns_nothing. Qed.

Lemma ensures_spawns_emit_sink e : ensures (spawns_only P) (emit_sink e).
Proof. intros w. by apply spawns_nothing. Qed.

Lemma ensures_spawns_emit_ui e : ensures (spawns_only P) (emit_ui e).
Proof. intros w. by apply spawns_nothing. Qed.

Lemma ensures_spawns_update_fs f : ensures (spawns_only P) (update_fs f).
Proof.
  intros w. apply spawns_nothing. unfold update_fs.
  by destruct (f (w_fs w)).
Qed.

Lemma ensures_spawns_stream_command h cmd cwd :
  P (cmd, cwd) → ensures (spawns_only P) (stream_command h cmd cwd).
Proof.
  intros HP w. destruct (FS.path_exists (w_fs w) cwd) eqn:Hc.
  - exists [(cmd, cwd)]. split; [|by repeat constructor].
    destruct (popen h cmd cwd (w_fs w)) as [out code fs'|out e fs'] eqn:Hp.
    + erewrite stream_command_exited by done. simpl.
      by destruct (foldl_push_sink (with_fs (push_popen w (cmd, cwd)) fs')
                     (stream_lines "" out)) as (_ & _ & _ & _ & ->).
    + erewrite stream_command_failed by done. simpl.
      by destruct (foldl_push_sink (with_fs (push_popen w (cmd, cwd)) fs')
                     (stream_lines "" out)) as (_ & _ & _ & _ & ->).
  - rewrite stream_command_missing_cwd by done. by apply spawns_nothing.
Qed.

Lemma ensures_for_each_in {A : Type} (R : relation world) `{!PreOrder R}
    (body : A → M unit) (l : list A) :
  (∀ x, x ∈ l → ensures R (body x)) → ensures R (for_each body l).
Proof.
  induction l as [|x l IH]; intros Hb; simpl.
  - by apply ensures_ret.
  - apply ensures_bind; [done|apply Hb, list_elem_of_here|].
    intros _. apply IH. intros y Hy. apply Hb. by apply list_elem_of_further.
Qed.

End spawns.

Ltac ensures_spawns_leaf :=
  idtac;
  lazymatch goal with
  | |- ensures _ (log _) => apply ensures_spawns_log
  | |- ensures _ (emit_sink _) => apply ensures_spawns_emit_sink
  | |- ensures _ (emit_ui _) => apply ensures_spawns_emit_ui
  | |- ensures _ (update_fs _) => apply ensures_spawns_update_fs
  end.

Lemma ensures_spawns_manage_repo h r :
  r ∈ REPOS → ensures (spawns_only (allowed_spawn h)) (manage_repo h r).
Proof.
  intros Hr. unfold manage_repo, clone_or_update, final_validation.
  fold (folder r). fold (clone_cmd h r).
  ensures_with ltac:(idtac; lazymatch goal with
    | |- ensures _ (stream_command _ _ _) =>
        apply ensures_spawns_stream_command; right; exists r;
        split; [exact Hr|first [by left|by right]]
    | |- _ => ensures_spawns_leaf
    end).
Qed.

(** X16. A run spawns nothing but the clone of a configured service in
    the workspace root, [git pull] in the folder of a configured service,
    and the final build/start command in the workspace root, however it
    ends. *)
Theorem run_spawns_only_known_commands (h : host) (w : world) :
  ∃ k, w_popen (final_world (run_bootstrap h w)) = w_popen w ++ k
       ∧ Forall (allowed_spawn h) k.
Proof.
  unfold run_bootstrap.
  match goal with
  | |- ∃ k, w_popen (final_world (?m ?w1)) = _ ∧ _ =>
      assert (ensures (spawns_only (allowed_spawn h)) m) as Hm;
        [|exact (Hm w1)]
  end.
  assert (ensures (spawns_only (allowed_spawn h))
            (for_each (manage_repo h) REPOS)) as Hloop.
  { apply ensures_for_each_in; [apply _|].
    intros r Hr. by apply ensures_spawns_manage_repo. }
  set (loop := for_each (manage_repo h) REPOS) in *.
  unfold step1_directories, step2_compose, step3_mock, step5_env,
    step6_launch. fold launch_cmd.
  ensures_with ltac:(idtac; lazymatch goal with
    | |- ensures _ loop => exact Hloop
    | |- ensures _ (stream_command _ _ _) =>
        apply ensures_spawns_stream_command; by left
    | |- _ => ensures_spawns_leaf
    end).
Qed.

(** ** Fail-soft over a whole run *)

(** The external commands change no file: the sources cannot be reached,
    the engine is absent. *)
Definition inert (h : host) : Prop :=
  ∀ cmd cwd fs, outcome_fs (popen h cmd cwd fs) = fs.

Definition same_at (q : path) (w w' : world) : Prop :=
  w_fs w' !! q = w_fs w !! q.

Global Instance same_at_preorder q : PreOrder (same_at q).
Proof.
  split.
  - by intros w.
  - intros w1 w2 w3 H12 H23. unfold same_at in *. congruence.
Qed.

Section frame_at.

Variable q : path.

Lemma ensures_same_log msg : ensures (same_at q) (log msg).
Proof. by intros w. Qed.

Lemma ensures_same_emit_sink e : ensures (same_at q) (emit_sink e).
Proof. by intros w. Qed.

Lemma ensures_same_emit_ui e : ensures (same_at q) (emit_ui e).
Proof. by intros w. Qed.

Lemma ensures_same_update_fs f :
  (∀ fs fs', f fs = inr fs' → fs' !! q = fs !! q) →
  ensures (same_at q) (update_fs f).
Proof.
  intros Hf w. unfold update_fs.
  destruct (f (w_fs w)) as [e|fs'] eqn:E; [done|].
  unfold same_at. simpl. by apply Hf.
Qed.

Lemma stream_command_fs_inert h cmd cwd w b w' :
  inert h → stream_command h cmd cwd w = Ok b w' → w_fs w' = w_fs w.
Proof.
  intros Hin. pose proof (Hin cmd cwd (w_fs w)) as Hfs.
  destruct (FS.path_exists (w_fs w) cwd) eqn:Hc.
  - destruct (popen h cmd cwd (w_fs w)) as [out code fs'|out e fs'] eqn:Hp.
    + erewrite stream_command_exited by done. intros [= <- <-].
      by destruct (foldl_push_sink (with_fs (push_popen w (cmd, cwd)) fs')
                     (stream_lines "" out)) as (-> & _).
    + erewrite stream_command_failed by done. intros [= <- <-]. simpl.
      by destruct (foldl_push_sink (with_fs (push_popen w (cmd, cwd)) fs')
                     (stream_lines "" out)) as (-> & _).
  - rewrite stream_command_missing_cwd by done. by intros [= <- <-].
Qed.

Lemma ensures_same_stream_command h cmd cwd :
  inert h → ensures (same_at q) (stream_command h cmd cwd).
Proof.
  intros Hin w. destruct (stream_command_returns h cmd cwd w)
    as (b & w' & E). rewrite E. unfold same_at. simpl.
  by rewrite (stream_command_fs_inert _ _ _ _ _ _ Hin E).
Qed.

End frame_at.

Lemma not_suffix_longer (q p : path) :
  List.length p < List.length q → ¬ q `suffix_of` p.
Proof. intros Hlt Hs. apply suffix_length in Hs. lia. Qed.

Lemma mock_not_above_service n :
  ¬ mock_file `suffix_of` (WORK_DIR </> "services" </> n).
Proof. intros [k Hk]. by destruct k as [|a [|b [|c [|d k]]]]. Qed.

Ltac unfold_paths :=
  unfold dockerfile_of, folder, mock_file, env_file, compose_file,
    WORK_DIR, BASE_DIR, PROJECT_NAME, sub in *.

Ltac frame_side :=
  first
    [ apply mock_not_above_service
    | apply not_suffix_longer; simpl; lia
    | unfold_paths; intros; congruence ].

Ltac ensures_same_leaf Hinert :=
  idtac;
  lazymatch goal with
  | |- ensures _ (log _) => apply ensures_same_log
  | |- ensures _ (emit_sink _) => apply ensures_same_emit_sink
  | |- ensures _ (emit_ui _) => apply ensures_same_emit_ui
  | |- ensures _ (stream_command _ _ _) =>
      apply ensures_same_stream_command; exact Hinert
  | |- ensures _ (update_fs (λ fs, FS.write_text fs _ _)) =>
      apply ensures_same_update_fs; intros ? ? ?;
      eapply write_text_other; [eassumption|frame_side]
  | |- ensures _ (update_fs (λ fs, FS.mkdir fs _)) =>
      apply ensures_same_update_fs; intros ? ? ?;
      eapply mkdir_other; [eassumption|frame_side]
  | |- ensures _ (update_fs (λ fs, os_remove _ fs _)) =>
      apply ensures_same_update_fs; intros ? ? ?;
      eapply os_remove_other; [eassumption|frame_side]
  | |- ensures _ (update_fs (λ fs, FS.copy fs _ _)) =>
      apply ensures_same_update_fs; intros ? ? ?;
      eapply copy_other; [eassumption|frame_side|frame_side]
  | |- ensures _ (update_fs (λ fs, FS.mkdir_parents fs _)) =>
      apply ensures_same_update_fs; intros ? ? ?;
      eapply mkdir_parents_other; [eassumption|frame_side]
  end.

Section fail_soft_run.

Variable h : host.
Hypothesis Hinert : inert h.

Lemma same_recipe_first_steps r :
  ensures (same_at (dockerfile_of r)) (step1_directories h)
  ∧ ensures (same_at (dockerfile_of r)) step2_compose
  ∧ ensures (same_at (dockerfile_of r)) step3_mock
  ∧ ensures (same_at (dockerfile_of r)) step5_env
  ∧ ensures (same_at (dockerfile_of r)) (step6_launch h).
Proof.
  unfold step1_directories, step2_compose, step3_mock, step5_env,
    step6_launch.
  split_and!; ensures_with ltac:(ensures_same_leaf Hinert).
Qed.

Lemma same_recipe_other_service r r' :
  name r' ≠ name r →
  ensures (same_at (dockerfile_of r)) (manage_repo h r').
Proof.
  intros Hne. unfold manage_repo, clone_or_update, final_validation.
  ensures_with ltac:(ensures_same_leaf Hinert).
Qed.

Lemma same_mock_any_service r' :
  ensures (same_at mock_file) (manage_repo h r').
Proof.
  unfold manage_repo, clone_or_update, final_validation.
  ensures_with ltac:(ensures_same_leaf Hinert).
Qed.

End fail_soft_run.

Lemma for_each_app_Ok {A : Type} (body : A → M unit) (l1 l2 : list A) w w' :
  for_each body (l1 ++ l2) w = Ok tt w' →
  ∃ w1, for_each body l1 w = Ok tt w1 ∧ for_each body l2 w1 = Ok tt w'.
Proof.
  revert w. induction l1 as [|x l1 IH]; intros w Hrun; simpl in *.
  - by exists w.
  - apply bind_Ok in Hrun as ([] & wa & Hx & Hrest).
    destruct (IH wa Hrest) as (w1 & H1 & H2).
    exists w1. split; [|done]. by rewrite (bind_Ok_eq _ _ _ _ _ Hx).
Qed.

(** The configured names are pairwise different. *)
Lemma REPOS_split r :
  r ∈ REPOS →
  ∃ l1 l2, REPOS = l1 ++ r :: l2
           ∧ Forall (λ r', name r' ≠ name r) (l1 ++ l2).
Proof.
  unfold REPOS. intros Hr.
  repeat (apply elem_of_cons in Hr as [->|Hr];
          [first [ by (exists []; eexists; split; [reflexivity|];
                       repeat constructor)
                 | by (eexists [_]; eexists; split; [reflexivity|];
                       repeat constructor)
                 | by (eexists [_; _]; eexists; split; [reflexivity|];
                       repeat constructor)
                 | by (eexists [_; _; _]; eexists; split; [reflexivity|];
                       repeat constructor) ]|]).
  by apply elem_of_nil in Hr.
Qed.

Section fail_soft_service.

Variable h : host.
Hypothesis Hinert : inert h.

Lemma clone_or_update_fs_inert r w w1 :
  is_mock_file (w_fs w) (dockerfile_of r) = false →
  clone_or_update h r w = Ok tt w1 → w_fs w1 = w_fs w.
Proof.
  intros Hm. unfold clone_or_update. rewrite bind_query.
  destruct (FS.path_exists (w_fs w) _); cbn [negb].
  - rewrite bind_query.
    change (WORK_DIR </> "services" </> name r </> "Dockerfile")
      with (dockerfile_of r).
    rewrite Hm. intros Hrun.
    apply bind_Ok in Hrun as ([] & wa & [= <-] & Hrun).
    rewrite bind_log in Hrun.
    apply bind_Ok in Hrun as (b & wb & Hcmd & [= <-]).
    by rewrite (stream_command_fs_inert _ _ _ _ _ _ Hinert Hcmd).
  - rewrite bind_log. intros Hrun.
    apply bind_Ok in Hrun as (b & wa & Hq & Hrun).
    unfold query_raising in Hq.
    destruct (FS.has_entries _ _); [done|]. injection Hq as _ <-.
    rewrite bind_query in Hrun. destruct (b && _).
    + unfold log in Hrun. by injection Hrun as <-.
    + apply bind_Ok in Hrun as (b' & wb & Hcmd & [= <-]).
      by rewrite (stream_command_fs_inert _ _ _ _ _ _ Hinert Hcmd).
Qed.

Lemma manage_repo_injects r w w' :
  w_fs w !! dockerfile_of r = None →
  w_fs w !! mock_file = Some (File mock_content) →
  manage_repo h r w = Ok tt w' →
  w_fs w' !! dockerfile_of r = Some (File mock_content).
Proof.
  intros Hq Hm. unfold manage_repo. rewrite bind_query. intros Hrun.
  apply bind_Ok in Hrun as ([] & w0 & Hmk & Hrun).
  assert (w_fs w0 !! dockerfile_of r = None
          ∧ w_fs w0 !! mock_file = Some (File mock_content)) as [Hq0 Hm0].
  { destruct (FS.path_exists (w_fs w) _); cbn [negb] in Hmk.
    - by injection Hmk as <-.
    - apply update_fs_Ok in Hmk as (fs' & Hmk & ->). simpl.
      rewrite (mkdir_parents_other _ _ (dockerfile_of r) _ Hmk)
        by frame_side.
      rewrite (mkdir_parents_other _ _ mock_file _ Hmk) by frame_side.
      done. }
  apply bind_Ok in Hrun as ([] & w1 & Hcu & Hfv).
  apply clone_or_update_fs_inert in Hcu.
  2:{ apply is_mock_file_missing. unfold FS.path_exists, FS.node_at.
      unfold dockerfile_of, sub in *. by rewrite Hq0. }
  unfold final_validation in Hfv. rewrite bind_query in Hfv.
  change (WORK_DIR </> "services" </> name r </> "Dockerfile")
    with (dockerfile_of r) in Hfv.
  rewrite Hcu in Hfv.
  assert (FS.path_exists (w_fs w0) (dockerfile_of r) = false) as He.
  { unfold FS.path_exists, FS.node_at. unfold dockerfile_of, sub in *.
    by rewrite Hq0. }
  rewrite He in Hfv. cbn [negb] in Hfv. rewrite bind_log in Hfv.
  apply update_fs_Ok in Hfv as (fs' & Hcopy & ->).
  simpl in Hcopy. rewrite Hcu in Hcopy. unfold FS.copy in Hcopy.
  unfold FS.node_at, dockerfile_of, mock_file, sub in *.
  rewrite Hm0, Hq0 in Hcopy.
  repeat case_match; simplify_eq; simpl; by rewrite lookup_insert_eq.
Qed.

Lemma step3_Ok_mock w w' :
  step3_mock w = Ok tt w' →
  w_fs w' !! mock_file = Some (File mock_content).
Proof.
  unfold step3_mock. intros Hrun.
  apply bind_Ok in Hrun as ([] & w0 & _ & Hw).
  apply update_fs_Ok in Hw as (fs' & Hw & ->). unfold FS.write_text in Hw.
  unfold mock_file, sub in *.
  repeat case_match; simplify_eq; simpl; by rewrite lookup_insert_eq.
Qed.

End fail_soft_service.

(** X17. Fail-soft guarantee.  When the external commands change no file
    (sources unreachable, engine absent), every run that reaches the
    launch leaves each configured service with a recipe, and a service
    that had no recipe before the run holds a copy of the mock artifact
    and is classified MockActive by the prober. *)
Theorem unreachable_sources_leave_mocks
    (h : host) (fs : filesystem) (w' : world) (r : Repo) :
  inert h →
  run_bootstrap h (initial_world fs) = Ok tt w' →
  launch_msg ∈ w_logs w' →
  r ∈ REPOS →
  FS.path_exists (w_fs w') (dockerfile_of r) = true
  ∧ (FS.path_exists fs (dockerfile_of r) = false →
     w_fs w' !! dockerfile_of r = Some (File mock_content)
     ∧ state_of (w_fs w') WORK_DIR (name r) = MockActive).
Proof.
  intros Hinert Hrun Hlaunch Hr.
  destruct (run_bootstrap_launched h _ _ Hrun Hlaunch)
    as (w1 & w2 & w3 & w4 & w5 & H1 & H2 & H3 & H4 & H5 & H6).
  destruct (REPOS_split r Hr) as (l1 & l2 & Hsplit & Hnames).
  apply Forall_app in Hnames as [Hn1 Hn2].
  rewrite Hsplit in H4.
  apply for_each_app_Ok in H4 as (wa & Ha & H4).
  simpl in H4. apply bind_Ok in H4 as ([] & wb & Hb & Hc).
  destruct (same_recipe_first_steps h Hinert r)
    as (S1 & S2 & S3 & S5 & S6).
  (* after the service has been handled, its recipe stays *)
  assert (w_fs w' !! dockerfile_of r = w_fs wb !! dockerfile_of r) as Hafter.
  { apply (ensures_Ok _ _ _ _ _ S6) in H6.
    apply (ensures_Ok _ _ _ _ _ S5) in H5.
    eapply (ensures_Ok (same_at (dockerfile_of r))) in Hc.
    2:{ apply ensures_for_each_in; [apply _|]. intros r' Hr'.
        apply same_recipe_other_service; [done|].
        by apply (proj1 (Forall_forall _ _) Hn2). }
    unfold same_at in *. congruence. }
  split.
  - pose proof Hb as Hex. unfold manage_repo in Hex.
    apply bind_Ok in Hex as (b & x0 & _ & Hex).
    apply bind_Ok in Hex as ([] & x1 & _ & Hex).
    apply bind_Ok in Hex as ([] & x2 & _ & Hex).
    apply final_validation_recipe_exists in Hex.
    unfold FS.path_exists, FS.node_at in *. unfold dockerfile_of, sub in *.
    by rewrite Hafter.
  - intros Hmissing.
    assert (w_fs wa !! dockerfile_of r = None) as Hqa.
    { apply (ensures_Ok _ _ _ _ _ S1) in H1.
      apply (ensures_Ok _ _ _ _ _ S2) in H2.
      apply (ensures_Ok _ _ _ _ _ S3) in H3.
      eapply (ensures_Ok (same_at (dockerfile_of r))) in Ha.
      2:{ apply ensures_for_each_in; [apply _|]. intros r' Hr'.
          apply same_recipe_other_service; [done|].
          by apply (proj1 (Forall_forall _ _) Hn1). }
      unfold same_at in *. simpl in H1.
      unfold FS.path_exists, FS.node_at in Hmissing.
      unfold dockerfile_of, sub in *.
      rewrite Ha, H3, H2, H1. by destruct (fs !! _). }
    assert (w_fs wa !! mock_file = Some (File mock_content)) as Hma.
    { apply step3_Ok_mock in H3.
      eapply (ensures_Ok (same_at mock_file)) in Ha.
      2:{ apply ensures_for_each; [apply _|]. intros r'.
          by apply same_mock_any_service. }
      unfold same_at in Ha. by rewrite Ha. }
    pose proof (manage_repo_injects h Hinert r wa wb Hqa Hma Hb) as Hqb.
    rewrite Hafter. split; [done|].
    unfold state_of, final_state, recipe_is_mock, is_mock_file,
      is_mock_file_try, FS.path_exists, FS.read_text, FS.node_at,
      folder_of, sub.
    unfold dockerfile_of, sub in *. by rewrite Hafter, Hqb.
Qed.

Lemma unreachable_sources_leave_mocks_witness :
  state_of (w_fs (final_world (run_bootstrap host_failing
                                 (initial_world ∅))))
    WORK_DIR "datasource" = MockActive.
Proof.
  refine (proj2 (proj2 (unreachable_sources_leave_mocks host_failing ∅
            (final_world (run_bootstrap host_failing (initial_world ∅)))
            ds_repo _ _ _ _) _)).
  - intros cmd cwd fs. unfold host_failing. simpl.
    by destruct (String.eqb cmd "git pull").
  - apply returns_normally_Ok. vm_compute. reflexivity.
  - apply (bool_decide_unpack _). vm_compute. exact I.
  - in_repos.
  - reflexivity.
Defined.

(** ** More on the descriptor *)

Lemma blocks_text_app (l1 l2 : list string) :
  blocks_text (l1 ++ l2) = blocks_text l1 +:+ blocks_text l2.
Proof.
  induction l1 as [|n l1 IH]; [done|].
  simpl. by rewrite IH, str_app_assoc.
Qed.

(** X18. For every list, names with line breaks included, the
    descriptor begins with the fixed header, and the block of each
    listed service occurs in it after the header. *)
Theorem descriptor_holds_header_and_every_block
    (repos : list Repo) (r : Repo) :
  r ∈ repos →
  ∃ before after,
    generate_dynamic_compose repos
    = compose_header +:+ before +:+ service_block (name r) +:+ after.
Proof.
  intros Hr. apply list_elem_of_split in Hr as (l1 & l2 & ->).
  rewrite generate_dynamic_compose_eq, fmap_app, fmap_cons.
  change (fmap name) with (map name).
  rewrite blocks_text_app. simpl blocks_text.
  exists (blocks_text (map name l1)), (blocks_text (map name l2) +:+ nl).
  by rewrite !str_app_assoc.
Qed.

Lemma descriptor_holds_header_and_every_block_witness :
  contains (service_block "ui") (generate_dynamic_compose REPOS) = true.
Proof.
  destruct (descriptor_holds_header_and_every_block REPOS
              {| name := "ui";
                 url := "https://github.com/ibm-live-project-interns/ui.git"
              |}) as (before & after & Heq); [in_repos|].
  apply contains_spec. exists (compose_header +:+ before), after.
  by rewrite Heq, !str_app_assoc.
Defined.

Lemma blocks_lines_names (l1 l2 : list Repo) :
  flat_map (λ r, "" :: build_block (name r)) l1
  = flat_map (λ r, "" :: build_block (name r)) l2 →
  map name l1 = map name l2.
Proof.
  revert l2. induction l1 as [|r1 l1 IH]; intros [|r2 l2] Heq;
    simpl in Heq; try done.
  unfold build_block in Heq. simplify_eq. simpl.
  f_equal; [done|]. by apply IH.
Qed.

(** X19. The descriptor tells the configured names, in order: two lists
    of services whose names contain no line break have the same
    descriptor only if they list the same names in the same order. *)
Theorem descriptor_determines_names (repos1 repos2 : list Repo) :
  Forall (λ r, newline_free (name r)) repos1 →
  Forall (λ r, newline_free (name r)) repos2 →
  generate_dynamic_compose repos1 = generate_dynamic_compose repos2 →
  map name repos1 = map name repos2.
Proof.
  intros H1 H2 Heq. apply (f_equal lines) in Heq.
  rewrite !lines_generate_dynamic_compose in Heq by done.
  apply app_inv_head, app_inv_tail in Heq.
  by apply blocks_lines_names.
Qed.

(** The configured services under other URLs. *)
Definition REPOS_mirrored : list Repo :=
  map (λ r, {| name := name r; url := "git@mirror:" +:+ name r |}) REPOS.

Lemma descriptor_determines_names_witness :
  map name REPOS_mirrored = map name REPOS.
Proof.
  apply (descriptor_determines_names REPOS_mirrored REPOS).
  - unfold REPOS_mirrored, REPOS. simpl. repeat constructor.
  - exact REPOS_newline_free.
  - vm_compute. reflexivity.
Defined.

(** ** What a whole run keeps, and what it always rewrites *)

(** The external commands do not create, change or delete [q]. *)
Definition leaves_alone (h : host) (q : path) : Prop :=
  ∀ cmd cwd fs, outcome_fs (popen h cmd cwd fs) !! q = fs !! q.

(** An entry [n] at [q] is still there. *)
Definition keeps (q : path) (n : node) (w w' : world) : Prop :=
  w_fs w !! q = Some n → w_fs w' !! q = Some n.

Global Instance keeps_preorder q n : PreOrder (keeps q n).
Proof.
  split.
  - intros w Hn. exact Hn.
  - intros w1 w2 w3 H12 H23 Hn. apply H23, H12, Hn.
Qed.

Lemma same_at_keeps q n w w' : same_at q w w' → keeps q n w w'.
Proof. unfold keeps, same_at. congruence. Qed.

Lemma ensures_same_stream_command_at q h cmd cwd :
  leaves_alone h q → ensures (same_at q) (stream_command h cmd cwd).
Proof.
  intros Hframe w. unfold same_at.
  destruct (FS.path_exists (w_fs w) cwd) eqn:Hc.
  - pose proof (Hframe cmd cwd (w_fs w)) as Hf.
    destruct (popen h cmd cwd (w_fs w)) as [out code fs'|out e fs'] eqn:Hp.
    + erewrite stream_command_exited by done. simpl.
      by destruct (foldl_push_sink (with_fs (push_popen w (cmd, cwd)) fs')
                     (stream_lines "" out)) as (-> & _).
    + erewrite stream_command_failed by done. simpl.
      by destruct (foldl_push_sink (with_fs (push_popen w (cmd, cwd)) fs')
                     (stream_lines "" out)) as (-> & _).
  - by rewrite stream_command_missing_cwd.
Qed.

Ltac not_above :=
  intros [k Hk]; unfold_paths;
  destruct k as [|? [|? [|? [|? [|? ?]]]]]; simplify_eq.

Ltac frame_side_at :=
  first [ frame_side | not_above ].

Ltac ensures_frame_leaf Hframe :=
  idtac;
  lazymatch goal with
  | |- ensures _ (log _) => apply ensures_same_log
  | |- ensures _ (emit_sink _) => apply ensures_same_emit_sink
  | |- ensures _ (emit_ui _) => apply ensures_same_emit_ui
  | |- ensures _ (stream_command _ _ _) =>
      apply ensures_same_stream_command_at; exact Hframe
  | |- ensures _ (update_fs (λ fs, FS.write_text fs _ _)) =>
      apply ensures_same_update_fs; intros ? ? ?;
      eapply write_text_other; [eassumption|frame_side_at]
  | |- ensures _ (update_fs (λ fs, FS.mkdir fs _)) =>
      apply ensures_same_update_fs; intros ? ? ?;
      eapply mkdir_other; [eassumption|frame_side_at]
  | |- ensures _ (update_fs (λ fs, os_remove _ fs _)) =>
      apply ensures_same_update_fs; intros ? ? ?;
      eapply os_remove_other; [eassumption|frame_side_at]
  | |- ensures _ (update_fs (λ fs, FS.copy fs _ _)) =>
      apply ensures_same_update_fs; intros ? ? ?;
      eapply copy_other; [eassumption|frame_side_at|frame_side_at]
  | |- ensures _ (update_fs (λ fs, FS.mkdir_parents fs _)) =>
      apply ensures_same_update_fs; intros ? ? ?;
      eapply mkdir_parents_other; [eassumption|frame_side_at]
  end.

Lemma final_world_bind {A B : Type} (m : M A) (f : A → M B) w :
  final_world ((m ≫= f) w)
  = match m w with
    | Ok a w1 => final_world (f a w1)
    | Raised _ w1 => w1
    end.
Proof. unfold mbind, M_bind. by destruct (m w). Qed.

Lemma is_mock_file_same_node (fs1 fs2 : filesystem) c p :
  fs1 !! (c :: p) = fs2 !! (c :: p) →
  is_mock_file fs1 (c :: p) = is_mock_file fs2 (c :: p).
Proof.
  intros E. unfold is_mock_file, is_mock_file_try, FS.path_exists,
    FS.read_text, FS.node_at. by rewrite E.
Qed.

Section valid_recipe.

Variables (h : host) (r : Repo) (n : node).
Hypothesis Hframe : leaves_alone h (dockerfile_of r).
(** [n] is not the mock: a lookup that gives [n] is not detected. *)
Hypothesis Hvalid :
  ∀ fs, fs !! dockerfile_of r = Some n →
        is_mock_file fs (dockerfile_of r) = false.

Lemma keeps_recipe_stream_command cmd cwd w :
  w_fs w !! dockerfile_of r = Some n →
  ∃ b w', stream_command h cmd cwd w = Ok b w'
          ∧ w_fs w' !! dockerfile_of r = Some n.
Proof.
  intros Hn. destruct (stream_command_returns h cmd cwd w)
    as (b & w' & E). exists b, w'. split; [done|].
  pose proof (ensures_same_stream_command_at _ h cmd cwd Hframe w) as Hs.
  rewrite E in Hs. unfold same_at in Hs. simpl in Hs. congruence.
Qed.

Lemma keeps_recipe_clone_or_update :
  ensures (keeps (dockerfile_of r) n) (clone_or_update h r).
Proof.
  intros w Hn. unfold clone_or_update. rewrite bind_query.
  destruct (FS.path_exists (w_fs w) _); cbn [negb].
  - rewrite bind_query.
    change (WORK_DIR </> "services" </> name r </> "Dockerfile")
      with (dockerfile_of r).
    rewrite (Hvalid _ Hn).
    rewrite (bind_Ok_eq _ _ w tt w) by done. rewrite bind_log.
    set (w0 := final_world (log _ w)).
    destruct (keeps_recipe_stream_command "git pull"
                (WORK_DIR </> "services" </> name r) w0 Hn)
      as (b & w' & E & Hn').
    by rewrite (bind_Ok_eq _ _ _ _ _ E).
  - rewrite bind_log. set (w0 := final_world (log _ w)).
    rewrite final_world_bind. unfold query_raising.
    destruct (FS.has_entries (w_fs w0) _) as [e|b]; [done|].
    rewrite bind_query. destruct (b && _); [done|].
    match goal with
    | |- context [stream_command h ?c ?d] =>
        destruct (keeps_recipe_stream_command c d w0 Hn)
          as (b' & w' & E & Hn')
    end.
    by rewrite (bind_Ok_eq _ _ _ _ _ E).
Qed.

Lemma keeps_recipe_final_validation :
  ensures (keeps (dockerfile_of r) n) (final_validation r).
Proof.
  intros w Hn. unfold final_validation. rewrite bind_query.
  change (WORK_DIR </> "services" </> name r </> "Dockerfile")
    with (dockerfile_of r).
  assert (FS.path_exists (w_fs w) (dockerfile_of r) = true) as ->.
  { unfold FS.path_exists, FS.node_at. unfold dockerfile_of, sub in *.
    by rewrite Hn. }
  cbn [negb]. rewrite bind_query. by destruct (is_mock_file _ _).
Qed.

Lemma keeps_recipe_manage_repo :
  ensures (keeps (dockerfile_of r) n) (manage_repo h r).
Proof.
  unfold manage_repo.
  ensures_with ltac:(idtac; lazymatch goal with
    | |- ensures _ (clone_or_update _ _) =>
        apply keeps_recipe_clone_or_update
    | |- ensures _ (final_validation _) =>
        apply keeps_recipe_final_validation
    | |- ensures _ (update_fs _) =>
        apply (ensures_weaken (same_at (dockerfile_of r)));
        [apply same_at_keeps|ensures_frame_leaf Hframe]
    end).
Qed.

Lemma keeps_recipe_other_service r' :
  name r' ≠ name r →
  ensures (keeps (dockerfile_of r) n) (manage_repo h r').
Proof.
  intros Hne. apply (ensures_weaken (same_at (dockerfile_of r)));
    [apply same_at_keeps|].
  unfold manage_repo, clone_or_update, final_validation.
  ensures_with ltac:(ensures_frame_leaf Hframe).
Qed.

Lemma keeps_recipe_steps :
  ensures (keeps (dockerfile_of r) n) (step1_directories h)
  ∧ ensures (keeps (dockerfile_of r) n) step2_compose
  ∧ ensures (keeps (dockerfile_of r) n) step3_mock
  ∧ ensures (keeps (dockerfile_of r) n) step5_env
  ∧ ensures (keeps (dockerfile_of r) n) (step6_launch h).
Proof.
  unfold step1_directories, step2_compose, step3_mock, step5_env,
    step6_launch.
  split_and!; (apply (ensures_weaken (same_at (dockerfile_of r)));
               [apply same_at_keeps|]);
    ensures_with ltac:(ensures_frame_leaf Hframe).
Qed.

End valid_recipe.

Lemma keeps_recipe_run (h : host) (r : Repo) (n : node) :
  leaves_alone h (dockerfile_of r) →
  (∀ fs, fs !! dockerfile_of r = Some n →
         is_mock_file fs (dockerfile_of r) = false) →
  ensures (keeps (dockerfile_of r) n) (run_bootstrap h).
Proof.
  intros Hframe Hvalid w. unfold run_bootstrap.
  match goal with
  | |- keeps _ _ _ (final_world (?m ?w1)) =>
      assert (ensures (keeps (dockerfile_of r) n) m) as Hm;
        [|exact (Hm w1)]
  end.
  destruct (keeps_recipe_steps h r n Hframe) as (S1 & S2 & S3 & S5 & S6).
  ensures_with ltac:(idtac; lazymatch goal with
    | |- ensures _ (step1_directories _) => exact S1
    | |- ensures _ step2_compose => exact S2
    | |- ensures _ step3_mock => exact S3
    | |- ensures _ step5_env => exact S5
    | |- ensures _ (step6_launch _) => exact S6
    | |- ensures _ (manage_repo _ ?r') =>
        destruct (decide (name r' = name r)) as [Heq|Hne];
        [ assert (dockerfile_of r = dockerfile_of r') as Hd
            by (unfold dockerfile_of; by rewrite Heq);
          rewrite Hd in *; by apply keeps_recipe_manage_repo
        | by apply keeps_recipe_other_service ]
    end).
Qed.

(** A service folder under git with a recipe of its own. *)
Definition fs_real_recipe : filesystem :=
  {[ WORK_DIR := Dir;
     WORK_DIR </> "services" := Dir;
     WORK_DIR </> "services" </> "datasource" := Dir;
     WORK_DIR </> "services" </> "datasource" </> ".git" := Dir;
     WORK_DIR </> "services" </> "datasource" </> "Dockerfile"
       := File "FROM python:3.12" ]}.

(** X20. A recipe that is not the mock survives a whole run: when the
    external commands leave the recipe path of a configured service
    alone and the entry there is not detected as mock, the entry is the
    same after the run, however the run ends. *)
Theorem valid_recipe_survives_run (h : host) (r : Repo) (n : node)
    (w : world) :
  r ∈ REPOS →
  leaves_alone h (dockerfile_of r) →
  w_fs w !! dockerfile_of r = Some n →
  is_mock_file (w_fs w) (dockerfile_of r) = false →
  w_fs (final_world (run_bootstrap h w)) !! dockerfile_of r = Some n.
Proof.
  intros _ Hframe Hn Hmock.
  apply (keeps_recipe_run h r n Hframe); [|done].
  intros fs Hfs. rewrite <- Hmock. unfold dockerfile_of, sub in *.
  apply is_mock_file_same_node. congruence.
Qed.

Lemma valid_recipe_survives_run_witness :
  w_fs (final_world (run_bootstrap host_failing
                       (initial_world fs_real_recipe)))
    !! dockerfile_of ds_repo
  = Some (File "FROM python:3.12").
Proof.
  apply valid_recipe_survives_run.
  - unfold REPOS, ds_repo. apply elem_of_cons. by left.
  - intros cmd cwd fs. unfold host_failing. simpl.
    by destruct (String.eqb cmd "git pull").
  - vm_compute. reflexivity.
  - vm_compute. reflexivity.
Defined.

Lemma step2_compose_writes (w : world) :
  FS.is_dir (w_fs w) WORK_DIR = true →
  w_fs w !! compose_file ≠ Some Dir →
  ∃ w', step2_compose w = Ok true w'
        ∧ w_fs w' !! compose_file
          = Some (File (generate_dynamic_compose REPOS)).
Proof.
  intros Hroot Hfile. unfold step2_compose. rewrite bind_log.
  unfold try_except, mbind, M_bind, update_fs, FS.write_text, FS.is_dir,
    compose_file, sub, log in *.
  cbn [final_world w_fs with_logs push_sink push_ui with_fs] in *.
  destruct (FS.node_at (w_fs w) WORK_DIR) as [[]|]; try done.
  destruct (w_fs w !! _) as [[]|] eqn:E; try done;
    (eexists; split; [reflexivity|]); cbn [w_fs with_fs];
    by rewrite lookup_insert_eq.
Qed.

Lemma keeps_descriptor_rest (h : host) (n : node) :
  leaves_alone h compose_file →
  ensures (keeps compose_file n)
    (step3_mock;; for_each (manage_repo h) REPOS;; step5_env;;
     step6_launch h).
Proof.
  intros Hframe.
  apply (ensures_weaken (same_at compose_file)); [apply same_at_keeps|].
  unfold step3_mock, manage_repo, clone_or_update, final_validation,
    step5_env, step6_launch.
  ensures_with ltac:(ensures_frame_leaf Hframe).
Qed.

(** X21. In an existing workspace a run always ends with the generated
    descriptor on disk: when the workspace root is a directory, the
    descriptor path is not one and the external commands leave that path
    alone, the descriptor holds the text generated from the configured
    list after the run, whatever it held before and however the later
    steps end. *)
Theorem run_leaves_generated_descriptor (h : host) (w : world) :
  leaves_alone h compose_file →
  FS.is_dir (w_fs w) WORK_DIR = true →
  w_fs w !! compose_file ≠ Some Dir →
  w_fs (final_world (run_bootstrap h w)) !! compose_file
  = Some (File (generate_dynamic_compose REPOS)).
Proof.
  intros Hframe Hroot Hfile. unfold run_bootstrap.
  set (w0 := with_logs w _).
  assert (FS.path_exists (w_fs w0) WORK_DIR = true) as Hexists.
  { unfold FS.is_dir, FS.path_exists in *. subst w0. cbn [w_fs with_logs].
    by destruct (FS.node_at (w_fs w) WORK_DIR). }
  rewrite (bind_Ok_eq _ _ w0 tt w0) by by apply step1_existing_root.
  destruct (step2_compose_writes w0 Hroot Hfile) as (w1 & E & Hd).
  rewrite (bind_Ok_eq _ _ _ _ _ E).
  by apply (keeps_descriptor_rest h _ Hframe w1).
Qed.

Definition fs_stale_descriptor : filesystem :=
  {[ WORK_DIR := Dir; compose_file := File "services: {}" ]}.

Lemma run_leaves_generated_descriptor_witness :
  w_fs (final_world (run_bootstrap host_failing
                       (initial_world fs_stale_descriptor)))
    !! compose_file
  = Some (File (generate_dynamic_compose REPOS)).
Proof.
  apply run_leaves_generated_descriptor.
  - intros cmd cwd fs. unfold host_failing. simpl.
    by destruct (String.eqb cmd "git pull").
  - vm_compute. reflexivity.
  - vm_compute. discriminate.
Defined.
